(** * charlotte: utils/assists/cipher.py

    A shallow embedding of the three functions of the cipher module,
    [keygen], [encrypt] and [decrypt], and of the library code they call:
    [str.encode] / [bytes.decode] (UTF-8), [base64.urlsafe_b64encode] /
    [urlsafe_b64decode], and [cryptography.fernet.Fernet].  The block
    cipher, the MAC and the key-derivation function are an interface
    ([Backend]); the operating system (entropy, clock, standard output,
    spawned processes) is an explicit [World] threaded through a small
    exception-and-state monad. *)

From Stdlib Require Import String Ascii List ZArith NArith Lia ZifyNat Bool Arith.
From Stdlib.Strings Require Import Byte.
Import ListNotations.

Ltac Zify.zify_post_hook ::= Z.to_euclidean_division_equations.

(** ** Option monad, used by the pure codecs *)

Definition obind {A B} (o : option A) (f : A -> option B) : option B :=
  match o with Some a => f a | None => None end.

Notation "x <-? o ; k" := (obind o (fun x => k))
  (at level 61, o at next level, right associativity).

(** ** Bytes

    A Python [bytes] object is a [list byte]; arithmetic on a byte goes
    through [N]. *)

Definition bytes := list byte.

Definition b2n (b : byte) : N := Byte.to_N b.

Definition n2b (n : N) : byte :=
  match Byte.of_N (n mod 256) with Some b => b | None => x00 end.

(** A Python [str] is a sequence of code points [0 .. 0x10FFFF]; lone
    surrogates ([0xD800 .. 0xDFFF]) are legal elements of a [str]. *)

Definition Text := list N.

Definition text_of_string (s : string) : Text :=
  map N_of_ascii (list_ascii_of_string s).

(** ** UTF-8: [str.encode()] and [bytes.decode()] with the default
    ['strict'] error handler *)

Module UTF8.

Open Scope N_scope.

(** A code point that [str.encode('utf-8')] accepts. *)
Definition scalar (c : N) : Prop :=
  c < 0xD800 \/ (0xE000 <= c /\ c <= 0x10FFFF).

Definition is_scalar (c : N) : bool :=
  (c <? 0xD800) || ((0xE000 <=? c) && (c <=? 0x10FFFF)).

Definition encode_cp (c : N) : option bytes :=
  if c <? 0x80 then Some [n2b c]
  else if c <? 0x800 then Some [n2b (0xC0 + c / 64); n2b (0x80 + c mod 64)]
  else if c <? 0x10000 then
    if (0xD800 <=? c) && (c <? 0xE000) then None
    else Some [n2b (0xE0 + c / 4096); n2b (0x80 + (c / 64) mod 64);
               n2b (0x80 + c mod 64)]
  else if c <? 0x110000 then
    Some [n2b (0xF0 + c / 262144); n2b (0x80 + (c / 4096) mod 64);
          n2b (0x80 + (c / 64) mod 64); n2b (0x80 + c mod 64)]
  else None.

(** [s.encode()]: [None] stands for [UnicodeEncodeError]. *)
Fixpoint encode (s : Text) : option bytes :=
  match s with
  | [] => Some []
  | c :: s' =>
      bs <-? encode_cp c ;
      rest <-? encode s' ;
      Some (bs ++ rest)
  end.

Definition is_cont (b : byte) : bool :=
  (0x80 <=? b2n b) && (b2n b <? 0xC0).

Definition cont (b : byte) : N := b2n b - 0x80.

(** [b.decode()]: [None] stands for [UnicodeDecodeError].  Overlong
    forms, surrogates and values above [0x10FFFF] are rejected. *)
Fixpoint decode (bs : bytes) : option Text :=
  match bs with
  | [] => Some []
  | b0 :: r0 =>
      let n0 := b2n b0 in
      if n0 <? 0x80 then
        s <-? decode r0 ; Some (n0 :: s)
      else if n0 <? 0xC2 then None
      else if n0 <? 0xE0 then
        match r0 with
        | b1 :: r1 =>
            if is_cont b1 then
              s <-? decode r1 ; Some (((n0 - 0xC0) * 64 + cont b1) :: s)
            else None
        | _ => None
        end
      else if n0 <? 0xF0 then
        match r0 with
        | b1 :: b2 :: r2 =>
            let c := (n0 - 0xE0) * 4096 + cont b1 * 64 + cont b2 in
            if is_cont b1 && is_cont b2 && (0x800 <=? c)
               && negb ((0xD800 <=? c) && (c <? 0xE000)) then
              s <-? decode r2 ; Some (c :: s)
            else None
        | _ => None
        end
      else if n0 <? 0xF5 then
        match r0 with
        | b1 :: b2 :: b3 :: r3 =>
            let c := (n0 - 0xF0) * 262144 + cont b1 * 4096
                     + cont b2 * 64 + cont b3 in
            if is_cont b1 && is_cont b2 && is_cont b3
               && (0x10000 <=? c) && (c <? 0x110000) then
              s <-? decode r3 ; Some (c :: s)
            else None
        | _ => None
        end
      else None
  end.

(** The text of an ASCII byte string, as [bytes.decode()] returns it. *)
Definition ascii_text (bs : bytes) : Text := map b2n bs.

Definition is_ascii (b : byte) : bool := b2n b <? 0x80.

End UTF8.

(** ** Base64: [base64.urlsafe_b64encode] and [base64.urlsafe_b64decode]

    The encoder is [binascii.b2a_base64] followed by the translation of
    [+] and [/] into [-] and [_].  The decoder translates [-] and [_]
    back and runs [binascii.a2b_base64] in its default, non-strict mode:
    a byte outside the alphabet is skipped, the bits of the last
    character that do not fill a byte are dropped, and an incomplete
    quantum raises [binascii.Error]. *)

Module Base64.

Open Scope N_scope.

Definition PAD : N := 61.                          (* '=' *)

(** [table_b2a_base64], the standard alphabet. *)
Definition b2a (v : N) : N :=
  if v <? 26 then 65 + v                           (* 'A'..'Z' *)
  else if v <? 52 then 97 + (v - 26)               (* 'a'..'z' *)
  else if v <? 62 then 48 + (v - 52)               (* '0'..'9' *)
  else if v =? 62 then 43                          (* '+' *)
  else 47.                                         (* '/' *)

(** [table_a2b_base64]: the value of an alphabet character. *)
Definition a2b (c : N) : option N :=
  if (65 <=? c) && (c <=? 90) then Some (c - 65)
  else if (97 <=? c) && (c <=? 122) then Some (c - 97 + 26)
  else if (48 <=? c) && (c <=? 57) then Some (c - 48 + 52)
  else if c =? 43 then Some 62
  else if c =? 47 then Some 63
  else None.

(** [_urlsafe_encode_translation] and [_urlsafe_decode_translation]. *)
Definition to_urlsafe (c : N) : N :=
  if c =? 43 then 45 else if c =? 47 then 95 else c.

Definition from_urlsafe (c : N) : N :=
  if c =? 45 then 43 else if c =? 95 then 47 else c.

Definition enc_char (v : N) : byte := n2b (to_urlsafe (b2a v)).

Definition pad_char : byte := n2b PAD.

(** [urlsafe_b64encode]: three bytes give four characters; a tail of
    one or two bytes is completed with [=]. *)
Fixpoint urlsafe_b64encode (bs : bytes) : bytes :=
  match bs with
  | [] => []
  | [x] =>
      [enc_char (b2n x / 4); enc_char ((b2n x mod 4) * 16);
       pad_char; pad_char]
  | [x; y] =>
      [enc_char (b2n x / 4);
       enc_char ((b2n x mod 4) * 16 + b2n y / 16);
       enc_char ((b2n y mod 16) * 4); pad_char]
  | x :: y :: z :: rest =>
      enc_char (b2n x / 4)
      :: enc_char ((b2n x mod 4) * 16 + b2n y / 16)
      :: enc_char ((b2n y mod 16) * 4 + b2n z / 64)
      :: enc_char (b2n z mod 64)
      :: urlsafe_b64encode rest
  end.

(** The loop of [binascii.a2b_base64] (non-strict): [quad_pos] is the
    position in the current quantum, [leftchar] the bits not yet
    written, [pads] the run of [=] seen since the last alphabet
    character, [out] the bytes written so far, last first. *)
Fixpoint a2b_loop (s : list N) (quad_pos : nat) (leftchar : N)
    (pads : nat) (out : bytes) : option bytes :=
  match s with
  | [] => if Nat.eqb quad_pos 0 then Some (rev out) else None
  | c :: s' =>
      if c =? PAD then
        if Nat.leb 2 quad_pos then
          if Nat.leb 4 (quad_pos + S pads) then Some (rev out)
          else a2b_loop s' quad_pos leftchar (S pads) out
        else a2b_loop s' quad_pos leftchar pads out
      else
        match a2b c with
        | None => a2b_loop s' quad_pos leftchar pads out
        | Some v =>
            match quad_pos with
            | 0%nat => a2b_loop s' 1 v 0 out
            | 1%nat =>
                a2b_loop s' 2 (v mod 16) 0 (n2b (leftchar * 4 + v / 16) :: out)
            | 2%nat =>
                a2b_loop s' 3 (v mod 4) 0 (n2b (leftchar * 16 + v / 4) :: out)
            | _ => a2b_loop s' 0 0 0 (n2b (leftchar * 64 + v) :: out)
            end
        end
  end.

(** [urlsafe_b64decode]: [None] stands for [binascii.Error]. *)
Definition urlsafe_b64decode (s : bytes) : option bytes :=
  a2b_loop (map (fun b => from_urlsafe (b2n b)) s) 0 0 0 [].

End Base64.

(** ** PKCS7 padding to the AES block size *)

Module PKCS7.

Definition block : nat := 16.

(** [padding.PKCS7(128).padder()]: between 1 and 16 bytes are added, each
    holding their number. *)
Definition pad (bs : bytes) : bytes :=
  let n := (block - length bs mod block)%nat in
  bs ++ repeat (n2b (N.of_nat n)) n.

(** [padding.PKCS7(128).unpadder()]: [None] stands for the [ValueError]
    of [finalize()]. *)
Definition unpad (bs : bytes) : option bytes :=
  match rev bs with
  | [] => None
  | last :: _ =>
      let n := N.to_nat (b2n last) in
      if negb (Nat.eqb (length bs mod block) 0) then None
      else if (Nat.leb 1 n && Nat.leb n block && Nat.leb n (length bs))%bool then
        if forallb (Byte.eqb last) (skipn (length bs - n) bs)
        then Some (firstn (length bs - n) bs)
        else None
      else None
  end.

End PKCS7.

(** ** Big-endian integers: [int.to_bytes] and [int.from_bytes] *)

Fixpoint be_bytes (n : nat) (z : Z) : bytes :=
  match n with
  | O => []
  | S n' => be_bytes n' (z / 256) ++ [n2b (Z.to_N (z mod 256))]
  end.

Definition from_be (bs : bytes) : Z :=
  fold_left (fun acc b => (acc * 256 + Z.of_N (b2n b))%Z) bs 0%Z.

(** ** Exceptions, the operating system and the program monad *)

(** The exception classes the three functions can meet; every one of
    them derives from [Exception]. *)
Inductive exn : Set :=
  | UnicodeEncodeError
  | UnicodeDecodeError
  | AttributeError
  | ValueError
  | OverflowError
  | InvalidToken
  | OSError.

(** A line written by the [print] of an [except] clause: the error, the
    name given by [stack()[0][3]] and the source line of the statement
    that raised. *)
Record Diagnostic : Set := {
  diag_error : exn;
  diag_function : string;
  diag_line : nat
}.

(** What the functions reach outside of the process.  [entropy] is the
    byte stream behind [os.urandom], read from [entropy_pos];
    [clock] lists the successive values of [int(time.time())];
    [stdout] and [processes] record [print] and [Popen], latest first. *)
Record World : Type := {
  entropy : nat -> byte;
  entropy_pos : nat;
  clock : nat -> Z;
  clock_pos : nat;
  stdout : list Diagnostic;
  processes : list Text
}.

Inductive Outcome (A : Type) : Type :=
  | Return (a : A)
  | Raised (e : exn) (lineno : nat).

Arguments Return {A} a.
Arguments Raised {A} e lineno.

Definition Py (A : Type) : Type := World -> Outcome A * World.

Definition ret {A} (a : A) : Py A := fun w => (Return a, w).

Definition bind {A B} (m : Py A) (k : A -> Py B) : Py B :=
  fun w =>
    match m w with
    | (Return a, w') => k a w'
    | (Raised e l, w') => (Raised e l, w')
    end.

Notation "x <- m ;; k" := (bind m (fun x => k))
  (at level 61, m at next level, right associativity).
Notation "m ;;; k" := (bind m (fun _ => k))
  (at level 61, right associativity).

(** A library call made by the statement on source line [line]. *)
Definition call {A} (line : nat) (f : World -> (exn + A) * World) : Py A :=
  fun w =>
    match f w with
    | (inr a, w') => (Return a, w')
    | (inl e, w') => (Raised e line, w')
    end.

(** A call that touches nothing outside. *)
Definition pure_call {A} (line : nat) (r : exn + A) : Py A :=
  call line (fun w => (r, w)).

(** [try: body except Exception as error: handler]. *)
Definition try_except {A} (body : Py A) (handler : exn -> nat -> Py A) : Py A :=
  fun w =>
    match body w with
    | (Return a, w') => (Return a, w')
    | (Raised e l, w') => handler e l w'
    end.

Definition or_raise {A} (e : exn) (o : option A) : exn + A :=
  match o with Some a => inr a | None => inl e end.

(** [os.urandom(n)]. *)
Definition urandom (n : nat) (w : World) : bytes * World :=
  (map (entropy w) (seq (entropy_pos w) n),
   {| entropy := entropy w; entropy_pos := entropy_pos w + n;
      clock := clock w; clock_pos := clock_pos w;
      stdout := stdout w; processes := processes w |}).

(** [int(time.time())]. *)
Definition time (w : World) : Z * World :=
  (clock w (clock_pos w),
   {| entropy := entropy w; entropy_pos := entropy_pos w;
      clock := clock w; clock_pos := S (clock_pos w);
      stdout := stdout w; processes := processes w |}).

(** [print(...)] in an [except] clause. *)
Definition print (d : Diagnostic) : Py unit :=
  fun w =>
    (Return tt,
     {| entropy := entropy w; entropy_pos := entropy_pos w;
        clock := clock w; clock_pos := clock_pos w;
        stdout := d :: stdout w; processes := processes w |}).

Definition spawn (cmd : Text) (w : World) : World :=
  {| entropy := entropy w; entropy_pos := entropy_pos w;
     clock := clock w; clock_pos := clock_pos w;
     stdout := stdout w; processes := cmd :: processes w |}.

(** ** The cryptographic backend and the process spawner

    [cryptography]'s primitives and [subprocess.Popen] are taken as an
    interface together with the part of their contract that the module
    relies on: CBC decryption undoes CBC encryption and keeps the length,
    an HMAC-SHA256 tag has 32 bytes, and PBKDF2 returns as many bytes as
    asked.  [popen_error cmd] is the exception, if any, that starting
    [cmd] in a shell raises. *)

Class Backend : Type := {
  aes_cbc_encrypt : bytes -> bytes -> bytes -> bytes;
  aes_cbc_decrypt : bytes -> bytes -> bytes -> bytes;
  hmac_sha256 : bytes -> bytes -> bytes;
  pbkdf2_hmac_sha512 : bytes -> bytes -> N -> nat -> bytes;
  popen_error : Text -> option exn;
  aes_cbc_length : forall k iv p,
    length k = 16 -> length iv = 16 -> length p mod 16 = 0 ->
    length (aes_cbc_encrypt k iv p) = length p;
  aes_cbc_inverse : forall k iv p,
    length k = 16 -> length iv = 16 -> length p mod 16 = 0 ->
    aes_cbc_decrypt k iv (aes_cbc_encrypt k iv p) = p;
  hmac_sha256_length : forall k m, length (hmac_sha256 k m) = 32;
  pbkdf2_length : forall pw salt iterations len,
    length (pbkdf2_hmac_sha512 pw salt iterations len) = len
}.

(** ** [cryptography.fernet.Fernet] *)

Module Fernet.

Record t : Set := {
  signing_key : bytes;
  encryption_key : bytes
}.

Definition bytes_eqb (a b : bytes) : bool :=
  if list_eq_dec Byte.byte_eq_dec a b then true else false.

(** [Fernet(key)]. *)
Definition init (key : bytes) : exn + t :=
  match Base64.urlsafe_b64decode key with
  | None => inl ValueError
  | Some raw =>
      if Nat.eqb (length raw) 32
      then inr {| signing_key := firstn 16 raw; encryption_key := skipn 16 raw |}
      else inl ValueError
  end.

Section WithBackend.

Context {B : Backend}.

(** [0x80 || timestamp || iv || ciphertext], the signed part of a token. *)
Definition basic_parts (f : t) (data : bytes) (current_time : Z) (iv : bytes)
  : bytes :=
  [x80] ++ be_bytes 8 current_time ++ iv
        ++ aes_cbc_encrypt (encryption_key f) iv (PKCS7.pad data).

(** [Fernet._encrypt_from_parts]. *)
Definition encrypt_from_parts (f : t) (data : bytes) (current_time : Z)
    (iv : bytes) : exn + bytes :=
  if ((0 <=? current_time) && (current_time <? 2 ^ 64))%Z then
    let parts := basic_parts f data current_time iv in
    inr (Base64.urlsafe_b64encode (parts ++ hmac_sha256 (signing_key f) parts))
  else inl OverflowError.

(** [Fernet.encrypt]: the time is read, then the IV is drawn. *)
Definition encrypt (f : t) (data : bytes) (w : World)
  : (exn + bytes) * World :=
  let (current_time, w1) := time w in
  let (iv, w2) := urandom 16 w1 in
  (encrypt_from_parts f data current_time iv, w2).

(** [Fernet._verify_signature]. *)
Definition verify_signature (f : t) (data : bytes) : bool :=
  bytes_eqb (hmac_sha256 (signing_key f) (firstn (length data - 32) data))
            (skipn (length data - 32) data).

(** [Fernet.decrypt(token)] with [ttl=None]. *)
Definition decrypt (f : t) (token : bytes) : exn + bytes :=
  match Base64.urlsafe_b64decode token with
  | None => inl InvalidToken
  | Some data =>
      match data with
      | [] => inl InvalidToken
      | v :: _ =>
          if negb (Byte.eqb v x80) then inl InvalidToken
          else if Nat.ltb (length data) 9 then inl InvalidToken
          else if negb (verify_signature f data) then inl InvalidToken
          else
            let iv := firstn 16 (skipn 9 data) in
            let ciphertext := skipn 25 (firstn (length data - 32) data) in
            if negb (Nat.eqb (length iv) 16) then inl ValueError
            else if negb (Nat.eqb (length ciphertext mod 16) 0)
            then inl InvalidToken
            else
              or_raise InvalidToken
                (PKCS7.unpad
                   (aes_cbc_decrypt (encryption_key f) iv ciphertext))
      end
  end.

End WithBackend.

End Fernet.

(** ** The module: [keygen], [encrypt], [decrypt] *)

(** [_KEY_NAME = 'ADMIN_USER_KEY'] ([_ENCODING = 'utf-8'] is the codec of
    [UTF8]). *)
Definition _KEY_NAME : Text := text_of_string "ADMIN_USER_KEY".

Definition str_encode (line : nat) (s : Text) : Py bytes :=
  pure_call line (or_raise UnicodeEncodeError (UTF8.encode s)).

Definition bytes_decode (line : nat) (b : bytes) : Py Text :=
  pure_call line (or_raise UnicodeDecodeError (UTF8.decode b)).

(** The [except Exception as error] clause shared by the three
    functions: one line is printed and the function ends without a
    [return], so that its value is [None]. *)
Definition report (name : string) (e : exn) (lineno : nat)
  : Py (option Text) :=
  print {| diag_error := e; diag_function := name; diag_line := lineno |} ;;;
  ret None.

Section Cipher.

Context {B : Backend}.

(** [Popen(cmd, stdout=PIPE, shell=True)]: the process is started and
    never waited for. *)
Definition Popen (line : nat) (cmd : Text) : Py unit :=
  call line (fun w =>
    match popen_error cmd with
    | Some e => (inl e, w)
    | None => (inr tt, spawn cmd w)
    end).

(** The command of line 86, [f"setx {key_name} {key}"]. *)
Definition setx (key_name key : Text) : Text :=
  text_of_string "setx " ++ key_name ++ text_of_string " " ++ key.

(** The [try] block of [keygen], lines 69-90.  [key_name] and
    [return_key] may be [None]. *)
Definition keygen_try (key_name : option Text) (passcode : Text)
    (return_key : option bool) : Py (option Text) :=
  password <- str_encode 71 passcode ;;
  salt <- call 76 (fun w => let (s, w') := urandom 128 w in (inr s, w')) ;;
  key <- bytes_decode 82
           (Base64.urlsafe_b64encode
              (pbkdf2_hmac_sha512 password salt 100000%N 32)) ;;
  let key_name :=
    match key_name with None => _KEY_NAME | Some n => n end in
  Popen 86 (setx key_name key) ;;;
  match return_key with
  | Some true => ret (Some key)
  | _ => ret None
  end.

(** [keygen(key_name, passcode, return_key=None)], lines 44-94. *)
Definition keygen (key_name : option Text) (passcode : Text)
    (return_key : option bool) : Py (option Text) :=
  try_except (keygen_try key_name passcode return_key) (report "keygen").

(** [Fernet(key.encode(encoding=_ENCODING))], lines 116 and 144. *)
Definition fernet_of (line : nat) (key : Text) : Py Fernet.t :=
  k <- str_encode line key ;;
  pure_call line (Fernet.init k).

(** The [try] block of [encrypt], lines 112-119. *)
Definition encrypt_try (message key : Text) : Py (option Text) :=
  to_encode <- str_encode 114 message ;;
  fernet_key <- fernet_of 116 key ;;
  encode <- call 117 (Fernet.encrypt fernet_key to_encode) ;;
  super_encode <- call 118 (Fernet.encrypt fernet_key encode) ;;
  text <- bytes_decode 119 super_encode ;;
  ret (Some text).

(** [encrypt(message, key)], lines 97-123. *)
Definition encrypt (message key : Text) : Py (option Text) :=
  try_except (encrypt_try message key) (report "encrypt").

(** The [try] block of [decrypt], lines 142-147.  [encrypted_text] is
    whatever [encrypt] returned, so it may be [None], which has no
    [encode] attribute. *)
Definition decrypt_try (encrypted_text : option Text) (key : Text)
  : Py (option Text) :=
  fernet_key <- fernet_of 144 key ;;
  token <- match encrypted_text with
           | Some s => str_encode 145 s
           | None => pure_call 145 (inl AttributeError)
           end ;;
  decode <- pure_call 145 (Fernet.decrypt fernet_key token) ;;
  super_decode <- pure_call 146 (Fernet.decrypt fernet_key decode) ;;
  text <- bytes_decode 147 super_decode ;;
  ret (Some text).

(** [decrypt(encrypted_text, key)], lines 126-151. *)
Definition decrypt (encrypted_text : option Text) (key : Text)
  : Py (option Text) :=
  try_except (decrypt_try encrypted_text key) (report "decrypt").

(** [decrypt(encrypt(message, k1), k2)]. *)
Definition decrypt_encrypt (message k1 k2 : Text) : Py (option Text) :=
  c <- encrypt message k1 ;; decrypt c k2.

End Cipher.

(** What a call returned, and the world it left. *)
Definition value {A} (r : Outcome (option A) * World) : option A :=
  match fst r with Return v => v | Raised _ _ => None end.

Definition raises {A} (r : Outcome A * World) : bool :=
  match fst r with Return _ => false | Raised _ _ => true end.

(** ** Notions used by the statements *)

(** A key text that [Fernet] accepts, and the key it stands for. *)
Definition key_of (key : Text) : option Fernet.t :=
  k <-? UTF8.encode key ;
  match Fernet.init k with inr f => Some f | inl _ => None end.

Definition valid_key (key : Text) : Prop := exists f, key_of key = Some f.

(** A key text as [keygen] makes them: the URL-safe encoding of 32 bytes. *)
Definition derived_key (key : Text) : Prop :=
  exists raw, length raw = 32 /\
    key = UTF8.ascii_text (Base64.urlsafe_b64encode raw).

(** The bytes a text of base64 characters stands for. *)
Definition token_bytes (text : Text) : option bytes :=
  b <-? UTF8.encode text ; Base64.urlsafe_b64decode b.

(** The text decodes to bytes whose HMAC tag verifies under [k]. *)
Definition verifies {B : Backend} (k : Fernet.t) (text : Text) : bool :=
  match token_bytes text with
  | Some data => Fernet.verify_signature k data
  | None => false
  end.

(** The clock readings and IVs of one call of [encrypt], in the order
    in which the two layers take them. *)
Definition encrypt_draws (w : World) : (Z * bytes) * (Z * bytes) :=
  ((clock w (clock_pos w), map (entropy w) (seq (entropy_pos w) 16)),
   (clock w (S (clock_pos w)),
    map (entropy w) (seq (entropy_pos w + 16) 16))).

(** The salt of one call of [keygen], and the key text the call
    derives from it: absent when the passphrase does not encode. *)
Definition keygen_salt (w : World) : bytes :=
  map (entropy w) (seq (entropy_pos w) 128).

Definition keygen_key {B : Backend} (passcode : Text) (w : World)
  : option Text :=
  password <-? UTF8.encode passcode ;
  Some (UTF8.ascii_text
          (Base64.urlsafe_b64encode
             (pbkdf2_hmac_sha512 password (keygen_salt w) 100000%N 32))).

(** The label under which [keygen] stores the key. *)
Definition key_label (key_name : option Text) : Text :=
  match key_name with None => _KEY_NAME | Some n => n end.

(** The characters of the URL-safe alphabet and its padding:
    [A-Z a-z 0-9 - _ =]. *)
Definition urlsafe_char (c : N) : bool :=
  ((65 <=? c) && (c <=? 90) || (97 <=? c) && (c <=? 122)
   || (48 <=? c) && (c <=? 57) || (c =? 45) || (c =? 95) || (c =? 61))%N.

(** The world after a call, with one more line on standard output. *)
Definition printed (d : Diagnostic) (w : World) : World :=
  {| entropy := entropy w; entropy_pos := entropy_pos w;
     clock := clock w; clock_pos := clock_pos w;
     stdout := d :: stdout w; processes := processes w |}.

Definition clock_ok (w : World) : Prop :=
  forall n, (0 <= clock w n < 2 ^ 64)%Z.

(** ASCII bytes; on them UTF-8 is the identity. *)
Definition ascii_bytes (bs : bytes) : Prop :=
  Forall (fun b => (b2n b < 128)%N) bs.

(** A character as the base64 decoder reads it, and the check of one
    alphabet character: it is not the pad, it has its value back, and it
    is ASCII. *)
Definition dec_char (b : byte) : N := Base64.from_urlsafe (b2n b).

Definition char_ok (v : N) : bool :=
  (negb (dec_char (Base64.enc_char v) =? Base64.PAD)
   && match Base64.a2b (dec_char (Base64.enc_char v)) with
      | Some v' => v' =? v
      | None => false
      end
   && (b2n (Base64.enc_char v) <? 128))%N.

(** A [Fernet] object whose two halves have 16 bytes each, as [init]
    makes them. *)
Definition good (f : Fernet.t) : Prop :=
  length (Fernet.signing_key f) = 16 /\ length (Fernet.encryption_key f) = 16.

(** The world after [keygen] has drawn its salt. *)
Definition salted (w : World) : World := snd (urandom 128 w).

(** [op] is [body] under the module's [except] clause: it never raises;
    what [body] returns goes through; an exception of [body] is printed
    with the name of the function and the line, and [op] returns [None]. *)
Definition caught_and_reported (name : string) (body op : Py (option Text))
  : Prop :=
  forall w,
    raises (op w) = false
    /\ match body w with
       | (Return v, w') => op w = (Return v, w')
       | (Raised e l, w') =>
           op w = (Return None,
                   printed {| diag_error := e; diag_function := name;
                              diag_line := l |} w')
       end.


(** The length of the token that one layer makes of [n] bytes, and of
    the text that [encrypt] makes of a message of [n] bytes. *)
Definition token_length (n : nat) : nat :=
  4 * ((57 + 16 * (n / 16 + 1) + 2) / 3).

Definition ciphertext_length (n : nat) : nat := token_length (token_length n).

(** The text with the element at [i] replaced by [c]. *)
Definition replace_at (i : nat) (c : N) (s : Text) : Text :=
  firstn i s ++ c :: skipn (S i) s.

(** ** The two wrappers as the specification words them

    Encryption: encode the message, authenticated-encrypt it (layer 1),
    authenticated-encrypt the layer-1 ciphertext with the same key
    (layer 2), give the layer-2 bytes as text.  Decryption: remove
    layer 2, then layer 1, decode.  An absent result is [None]. *)

Module Spec.

Section WithBackend.

Context {B : Backend}.

Definition absent_on_error {A} (r : exn + A) : option A :=
  match r with inr a => Some a | inl _ => None end.

Definition authenticated_encrypt (k : Fernet.t) (draw : Z * bytes)
    (data : bytes) : option bytes :=
  absent_on_error (Fernet.encrypt_from_parts k data (fst draw) (snd draw)).

Definition authenticated_decrypt (k : Fernet.t) (token : bytes)
  : option bytes :=
  absent_on_error (Fernet.decrypt k token).

Definition encrypt (message key : Text) (draws : (Z * bytes) * (Z * bytes))
  : option Text :=
  m <-? UTF8.encode message ;
  k <-? key_of key ;
  layer1 <-? authenticated_encrypt k (fst draws) m ;
  layer2 <-? authenticated_encrypt k (snd draws) layer1 ;
  UTF8.decode layer2.

Definition decrypt (encrypted_text key : Text) : option Text :=
  k <-? key_of key ;
  layer2 <-? UTF8.encode encrypted_text ;
  layer1 <-? authenticated_decrypt k layer2 ;
  m <-? authenticated_decrypt k layer1 ;
  UTF8.decode m.

End WithBackend.

End Spec.

(** ** A backend to run the model on

    A byte-wise shift keyed by the first bytes of key and IV in place of
    AES-CBC, a checksum in place of HMAC-SHA256, a repeated checksum in
    place of PBKDF2, and a spawner that only refuses a NUL in the
    command.  It meets the contract of [Backend] and makes the model
    executable; it has no cryptographic strength. *)

Module Reference.

Definition sum_bytes (bs : bytes) : N :=
  fold_right (fun b acc => (b2n b + acc)%N) 0%N bs.

Definition shift_of (k iv : bytes) : N :=
  ((b2n (hd x00 k) + b2n (hd x00 iv)) mod 256)%N.

Definition cbc_encrypt (k iv p : bytes) : bytes :=
  map (fun b => n2b (b2n b + shift_of k iv)) p.

Definition cbc_decrypt (k iv c : bytes) : bytes :=
  map (fun b => n2b (b2n b + 256 - shift_of k iv)) c.

Definition hmac (k m : bytes) : bytes :=
  n2b (sum_bytes k + sum_bytes m) :: n2b (N.of_nat (length m))
      :: repeat x00 30.

Definition pbkdf2 (pw salt : bytes) (iterations : N) (len : nat) : bytes :=
  repeat (n2b (sum_bytes pw + sum_bytes salt + iterations)) len.

Definition popen_nul (cmd : Text) : option exn :=
  if existsb (N.eqb 0) cmd then Some ValueError else None.

(** A world whose entropy is the constant byte [b] and whose clock
    stands at [t]. *)
Definition world (b : byte) (t : Z) : World :=
  {| entropy := fun _ => b; entropy_pos := 0;
     clock := fun _ => t; clock_pos := 0;
     stdout := []; processes := [] |}.

(** A key as [keygen] makes them, the encoding of 32 zero bytes
    ([AAAA...AAA=]), and the same text with [B] for its last [A];
    a message; two worlds that differ in their entropy. *)
Definition key : Text :=
  UTF8.ascii_text (Base64.urlsafe_b64encode (repeat x00 32)).

Definition key_alias : Text := replace_at 42 66 key.

Definition hello : Text := text_of_string "hello world".

Definition now : World := world x07 1700000000.

Definition again : World := world x08 1700000000.

End Reference.

(** * Facts about the codecs *)

Arguments n2b : simpl never.
Arguments b2n : simpl never.

Lemma b2n_lt (b : byte) : (b2n b < 256)%N.
Proof. unfold b2n. pose proof (Byte.to_N_bounded b). lia. Qed.

Lemma n2b_b2n (b : byte) : n2b (b2n b) = b.
Proof.
  unfold n2b, b2n. rewrite N.mod_small by apply b2n_lt.
  now rewrite Byte.of_to_N.
Qed.

Lemma b2n_n2b (n : N) : b2n (n2b n) = (n mod 256)%N.
Proof.
  unfold n2b, b2n.
  destruct (Byte.of_N (n mod 256)) as [b|] eqn:E.
  - now apply Byte.to_of_N.
  - apply Byte.of_N_None_iff in E. lia.
Qed.

Lemma b2n_n2b_small (n : N) : (n < 256)%N -> b2n (n2b n) = n.
Proof. intros. rewrite b2n_n2b. now apply N.mod_small. Qed.

Lemma b2n_inj (a b : byte) : b2n a = b2n b -> a = b.
Proof. intros H. rewrite <- (n2b_b2n a), <- (n2b_b2n b). now rewrite H. Qed.

Lemma obind_some {A B} (o : option A) (f : A -> option B) (b : B) :
  obind o f = Some b -> exists a, o = Some a /\ f a = Some b.
Proof. destruct o; simpl; [eauto | discriminate]. Qed.

Lemma some_inj {A} (a b : A) : Some a = Some b -> a = b.
Proof. congruence. Qed.

(** Decide the comparisons on which a codec branches. *)
Ltac cmp :=
  repeat match goal with
  | |- context [(?a <? ?b)%N] => destruct (N.ltb_spec a b); try lia
  | |- context [(?a <=? ?b)%N] => destruct (N.leb_spec a b); try lia
  | |- context [(?a =? ?b)%N] => destruct (N.eqb_spec a b); try lia
  end.

(** ** UTF-8 *)

Section UTF8Facts.
Import UTF8.
Local Open Scope N_scope.

Lemma utf8_decode_cons (b0 : byte) (r0 : bytes) :
  decode (b0 :: r0) =
  let n0 := b2n b0 in
  if n0 <? 0x80 then s <-? decode r0 ; Some (n0 :: s)
  else if n0 <? 0xC2 then None
  else if n0 <? 0xE0 then
    match r0 with
    | b1 :: r1 =>
        if is_cont b1 then
          s <-? decode r1 ; Some (((n0 - 0xC0) * 64 + cont b1) :: s)
        else None
    | _ => None
    end
  else if n0 <? 0xF0 then
    match r0 with
    | b1 :: b2 :: r2 =>
        let c := (n0 - 0xE0) * 4096 + cont b1 * 64 + cont b2 in
        if is_cont b1 && is_cont b2 && (0x800 <=? c)
           && negb ((0xD800 <=? c) && (c <? 0xE000)) then
          s <-? decode r2 ; Some (c :: s)
        else None
    | _ => None
    end
  else if n0 <? 0xF5 then
    match r0 with
    | b1 :: b2 :: b3 :: r3 =>
        let c := (n0 - 0xF0) * 262144 + cont b1 * 4096
                 + cont b2 * 64 + cont b3 in
        if is_cont b1 && is_cont b2 && is_cont b3
           && (0x10000 <=? c) && (c <? 0x110000) then
          s <-? decode r3 ; Some (c :: s)
        else None
    | _ => None
    end
  else None.
Proof. reflexivity. Qed.

(** The value of a lead or continuation byte made by [encode_cp]. *)
Lemma b2n_n2b_add (base x : N) :
  base + x < 256 -> b2n (n2b (base + x)) = base + x.
Proof. intros. now apply b2n_n2b_small. Qed.

Lemma utf8_decode_cp (c : N) (bs rest : bytes) :
  encode_cp c = Some bs ->
  decode (bs ++ rest) = (s <-? decode rest ; Some (c :: s)).
Proof.
  unfold encode_cp. intros H.
  destruct (N.ltb_spec c 0x80).
  { apply some_inj in H; subst bs. cbv beta iota delta [app]. rewrite utf8_decode_cons.
    cbv zeta. rewrite b2n_n2b_small by lia. cmp. reflexivity. }
  destruct (N.ltb_spec c 0x800).
  { apply some_inj in H; subst bs. cbv beta iota delta [app]. rewrite utf8_decode_cons.
    cbv beta iota zeta delta [is_cont cont].
    rewrite !b2n_n2b_add by lia. cmp. cbv beta iota delta [andb].
    replace ((192 + c / 64 - 192) * 64 + (128 + c mod 64 - 128)) with c by lia.
    reflexivity. }
  destruct (N.ltb_spec c 0x10000).
  { destruct (N.leb_spec 0xD800 c); destruct (N.ltb_spec c 0xE000);
      cbv beta iota delta [andb] in H; try discriminate; apply some_inj in H; subst bs;
      cbv beta iota delta [app]; rewrite utf8_decode_cons;
      cbv beta iota zeta delta [is_cont cont];
      rewrite !b2n_n2b_add by lia.
    all: replace ((224 + c / 4096 - 224) * 4096 + (128 + (c / 64) mod 64 - 128) * 64 + (128 + c mod 64 - 128)) with c by lia.
    all: cmp; reflexivity. }
  destruct (N.ltb_spec c 0x110000); [|discriminate].
  apply some_inj in H; subst bs. cbv beta iota delta [app]. rewrite utf8_decode_cons.
  cbv beta iota zeta delta [is_cont cont].
  rewrite !b2n_n2b_add by lia.
  replace ((240 + c / 262144 - 240) * 262144 + (128 + (c / 4096) mod 64 - 128) * 4096 + (128 + (c / 64) mod 64 - 128) * 64 + (128 + c mod 64 - 128)) with c by lia.
  cmp; reflexivity.
Qed.

Lemma utf8_decode_encode (s : Text) (bs : bytes) :
  encode s = Some bs -> decode bs = Some s.
Proof.
  revert bs. induction s as [|c s IH]; intros bs H; cbn [encode] in H.
  - now injection H as <-.
  - apply obind_some in H as (b1 & Hc & H).
    apply obind_some in H as (b2 & Hs & H). injection H as <-.
    rewrite (utf8_decode_cp c b1 b2 Hc), (IH _ Hs). reflexivity.
Qed.

End UTF8Facts.

(** A property of all values below a bound, checked by enumeration. *)
Lemma below_forallb (n : nat) (p : N -> bool) :
  forallb p (map N.of_nat (seq 0 n)) = true ->
  forall v, (v < N.of_nat n)%N -> p v = true.
Proof.
  intros H v Hv. rewrite forallb_forall in H. apply H.
  apply in_map_iff. exists (N.to_nat v). split; [lia|].
  apply in_seq. lia.
Qed.

Lemma n2b_eq (n : N) (x : byte) : n = b2n x -> n2b n = x.
Proof. intros ->. apply n2b_b2n. Qed.

(** ** Base64 *)

Section Base64Facts.
Import Base64.
Local Open Scope N_scope.

Lemma dec_enc_char (v : N) :
  v < 64 ->
  (dec_char (enc_char v) =? PAD) = false
  /\ a2b (dec_char (enc_char v)) = Some v
  /\ b2n (enc_char v) < 128.
Proof.
  intros Hv.
  assert (H : char_ok v = true).
  { apply (below_forallb 64 char_ok); [vm_compute; reflexivity | exact Hv]. }
  unfold char_ok in H. apply andb_prop in H as [H H3].
  apply andb_prop in H as [H1 H2].
  repeat split.
  - now apply negb_true_iff.
  - destruct (a2b (dec_char (enc_char v))); [|discriminate].
    apply N.eqb_eq in H2. now subst.
  - now apply N.ltb_lt.
Qed.

Lemma pad_char_value : dec_char pad_char = PAD.
Proof. reflexivity. Qed.

(** One quantum of four characters read from position 0. *)
Lemma a2b_loop_quantum (v0 v1 v2 v3 : N) (s : list N) lc pads out :
  v0 < 64 -> v1 < 64 -> v2 < 64 -> v3 < 64 ->
  a2b_loop (dec_char (enc_char v0) :: dec_char (enc_char v1)
            :: dec_char (enc_char v2) :: dec_char (enc_char v3) :: s)
           0 lc pads out
  = a2b_loop s 0 0 0
      (n2b (v2 mod 4 * 64 + v3) :: n2b (v1 mod 16 * 16 + v2 / 4)
       :: n2b (v0 * 4 + v1 / 16) :: out).
Proof.
  intros H0 H1 H2 H3.
  destruct (dec_enc_char _ H0) as (P0 & A0 & _).
  destruct (dec_enc_char _ H1) as (P1 & A1 & _).
  destruct (dec_enc_char _ H2) as (P2 & A2 & _).
  destruct (dec_enc_char _ H3) as (P3 & A3 & _).
  cbn [a2b_loop]. rewrite P0, A0. cbn [a2b_loop]. rewrite P1, A1.
  cbn [a2b_loop]. rewrite P2, A2. cbn [a2b_loop]. rewrite P3, A3.
  reflexivity.
Qed.

Lemma split3 (x y z : byte) :
  n2b (b2n x / 4 * 4 + (b2n x mod 4 * 16 + b2n y / 16) / 16) = x
  /\ n2b ((b2n x mod 4 * 16 + b2n y / 16) mod 16 * 16
          + (b2n y mod 16 * 4 + b2n z / 64) / 4) = y
  /\ n2b ((b2n y mod 16 * 4 + b2n z / 64) mod 4 * 64 + b2n z mod 64) = z.
Proof.
  pose proof (b2n_lt x). pose proof (b2n_lt y). pose proof (b2n_lt z).
  repeat split; apply n2b_eq; lia.
Qed.

Lemma a2b_loop_encode (n : nat) : forall (bs : bytes) lc pads out,
  (length bs <= n)%nat ->
  a2b_loop (map dec_char (urlsafe_b64encode bs)) 0 lc pads out
  = Some (rev out ++ bs).
Proof.
  induction n as [|n IH]; intros bs lc pads out Hn.
  - destruct bs; [|simpl in Hn; lia]. simpl. now rewrite app_nil_r.
  - destruct bs as [|x [|y [|z rest]]].
    + simpl. now rewrite app_nil_r.
    + pose proof (b2n_lt x) as Bx.
      assert (H0 : b2n x / 4 < 64) by lia.
      assert (H1 : b2n x mod 4 * 16 < 64) by lia.
      destruct (dec_enc_char _ H0) as (P0 & A0 & _).
      destruct (dec_enc_char _ H1) as (P1 & A1 & _).
      cbn [urlsafe_b64encode map a2b_loop].
      rewrite P0, A0. cbn [a2b_loop]. rewrite P1, A1. cbn [a2b_loop].
      rewrite pad_char_value. cbn [N.eqb PAD Pos.eqb Nat.leb Nat.add rev].
      repeat f_equal. apply n2b_eq. lia.
    + pose proof (b2n_lt x) as Bx. pose proof (b2n_lt y) as By.
      assert (H0 : b2n x / 4 < 64) by lia.
      assert (H1 : b2n x mod 4 * 16 + b2n y / 16 < 64) by lia.
      assert (H2 : b2n y mod 16 * 4 < 64) by lia.
      destruct (dec_enc_char _ H0) as (P0 & A0 & _).
      destruct (dec_enc_char _ H1) as (P1 & A1 & _).
      destruct (dec_enc_char _ H2) as (P2 & A2 & _).
      cbn [urlsafe_b64encode map a2b_loop].
      rewrite P0, A0. cbn [a2b_loop]. rewrite P1, A1. cbn [a2b_loop].
      rewrite P2, A2. cbn [a2b_loop].
      rewrite pad_char_value. cbn [N.eqb PAD Pos.eqb Nat.leb Nat.add rev].
      rewrite <- app_assoc. cbn [app]. repeat f_equal; apply n2b_eq; lia.
    + pose proof (b2n_lt x) as Bx. pose proof (b2n_lt y) as By. pose proof (b2n_lt z) as Bz.
      cbn [urlsafe_b64encode map].
      rewrite a2b_loop_quantum by lia.
      rewrite IH by (simpl in Hn; lia).
      destruct (split3 x y z) as (-> & -> & ->).
      cbn [rev]. rewrite <- !app_assoc. reflexivity.
Qed.

Lemma b64_decode_encode (bs : bytes) :
  urlsafe_b64decode (urlsafe_b64encode bs) = Some bs.
Proof.
  unfold urlsafe_b64decode.
  exact (a2b_loop_encode (length bs) bs 0 0%nat [] (le_n _)).
Qed.

Lemma b64_encode_inj (a b : bytes) :
  urlsafe_b64encode a = urlsafe_b64encode b -> a = b.
Proof.
  intros H. apply some_inj. rewrite <- !b64_decode_encode. now rewrite H.
Qed.

End Base64Facts.

(** ** ASCII text *)

Section AsciiFacts.
Import UTF8.
Local Open Scope N_scope.

Lemma utf8_decode_ascii (bs : bytes) :
  ascii_bytes bs -> decode bs = Some (ascii_text bs).
Proof.
  induction 1 as [|b bs Hb _ IH]; [reflexivity|].
  rewrite utf8_decode_cons. cbv zeta.
  destruct (N.ltb_spec (b2n b) 128); [|lia].
  rewrite IH. reflexivity.
Qed.

Lemma utf8_encode_ascii (bs : bytes) :
  ascii_bytes bs -> encode (ascii_text bs) = Some bs.
Proof.
  induction 1 as [|b bs Hb _ IH]; [reflexivity|].
  cbn [ascii_text map encode]. fold (ascii_text bs). rewrite IH.
  unfold encode_cp. destruct (N.ltb_spec (b2n b) 128); [|lia].
  cbn [obind app]. now rewrite n2b_b2n.
Qed.

Lemma ascii_text_inj (a b : bytes) : ascii_text a = ascii_text b -> a = b.
Proof.
  revert b. induction a as [|x a IH]; intros [|y b] H; try discriminate.
  - reflexivity.
  - cbn [ascii_text map] in H. injection H as Hx Hr.
    f_equal; [now apply b2n_inj | now apply IH].
Qed.

Lemma b64_ascii (bs : bytes) : ascii_bytes (Base64.urlsafe_b64encode bs).
Proof.
  assert (P : b2n Base64.pad_char < 128) by (vm_compute; reflexivity).
  assert (E : forall v, v < 64 -> b2n (Base64.enc_char v) < 128).
  { intros v Hv. now destruct (dec_enc_char _ Hv) as (_ & _ & ?). }
  assert (G : forall n (l : bytes), (length l <= n)%nat ->
              ascii_bytes (Base64.urlsafe_b64encode l)).
  { induction n as [|n IH]; intros l Hl.
    - destruct l; [constructor | simpl in Hl; lia].
    - destruct l as [|x [|y [|z rest]]]; cbn [Base64.urlsafe_b64encode].
      + constructor.
      + pose proof (b2n_lt x). repeat constructor; try exact P; apply E; lia.
      + pose proof (b2n_lt x). pose proof (b2n_lt y).
        repeat constructor; try exact P; apply E; lia.
      + pose proof (b2n_lt x). pose proof (b2n_lt y). pose proof (b2n_lt z).
        repeat (constructor; [apply E; lia|]).
        apply IH. simpl in Hl. lia. }
  exact (G (length bs) bs (le_n _)).
Qed.

End AsciiFacts.

(** ** PKCS7 *)

Section PKCS7Facts.
Import PKCS7.

Lemma pkcs7_pad_length (bs : bytes) : length (pad bs) mod 16 = 0.
Proof.
  unfold pad. change block with 16. rewrite length_app, repeat_length.
  pose proof (Nat.mod_upper_bound (length bs) 16).
  pose proof (Nat.div_mod_eq (length bs) 16).
  replace (length bs + (16 - length bs mod 16))
    with ((length bs / 16 + 1) * 16) by lia.
  apply Nat.Div0.mod_mul.
Qed.

Lemma forallb_repeat (b : byte) (n : nat) :
  forallb (Byte.eqb b) (repeat b n) = true.
Proof.
  induction n; [reflexivity|]. cbn [repeat forallb]. rewrite IHn.
  now rewrite (Byte.byte_dec_lb eq_refl).
Qed.

Lemma pkcs7_unpad_pad (bs : bytes) : unpad (pad bs) = Some bs.
Proof.
  pose proof (pkcs7_pad_length bs) as L.
  unfold unpad. change block with 16. rewrite L. cbn [Nat.eqb negb].
  unfold pad in *. change block with 16 in *.
  set (n := 16 - length bs mod 16) in *.
  assert (Hn : 1 <= n <= 16).
  { pose proof (Nat.mod_upper_bound (length bs) 16). lia. }
  destruct n as [|m] eqn:En; [lia|].
  cbn [repeat]. 
  replace (bs ++ n2b (N.of_nat (S m)) :: repeat (n2b (N.of_nat (S m))) m)
    with (bs ++ repeat (n2b (N.of_nat (S m))) m ++ [n2b (N.of_nat (S m))]).
  2:{ f_equal. change (repeat (n2b (N.of_nat (S m))) m ++ repeat (n2b (N.of_nat (S m))) 1
                       = repeat (n2b (N.of_nat (S m))) (1 + m)).
      rewrite <- repeat_app. f_equal. lia. }
  rewrite app_assoc, rev_app_distr. cbn [rev app].
  rewrite b2n_n2b_small by lia. rewrite Nat2N.id.
  rewrite length_app, length_app, repeat_length. cbn [length].
  replace (Nat.leb 1 (S m)) with true by (symmetry; apply Nat.leb_le; lia).
  replace (Nat.leb (S m) 16) with true by (symmetry; apply Nat.leb_le; lia).
  replace (Nat.leb (S m) (length bs + m + 1)) with true
    by (symmetry; apply Nat.leb_le; lia).
  cbn [andb].
  replace (length bs + m + 1 - S m) with (length bs + 0) by lia.
  rewrite <- app_assoc.
  rewrite skipn_app, firstn_app.
  replace (length bs + 0 - length bs) with 0 by lia.
  rewrite Nat.add_0_r, skipn_all, firstn_all. cbn [skipn firstn app].
  replace (repeat (n2b (N.of_nat (S m))) m ++ [n2b (N.of_nat (S m))])
    with (repeat (n2b (N.of_nat (S m))) (m + 1)) by now rewrite repeat_app.
  rewrite forallb_repeat. now rewrite app_nil_r.
Qed.

Lemma pkcs7_pad_inj (a b : bytes) : pad a = pad b -> a = b.
Proof. intros H. apply some_inj. rewrite <- !pkcs7_unpad_pad. now rewrite H. Qed.

End PKCS7Facts.

Lemma be_bytes_length (n : nat) (z : Z) : length (be_bytes n z) = n.
Proof.
  revert z. induction n as [|n IH]; intros z; [reflexivity|].
  cbn [be_bytes]. rewrite length_app, IH. simpl. lia.
Qed.

Lemma from_be_app (a : bytes) (b : byte) :
  from_be (a ++ [b]) = (from_be a * 256 + Z.of_N (b2n b))%Z.
Proof. unfold from_be. now rewrite fold_left_app. Qed.

Lemma from_be_bytes (n : nat) (z : Z) :
  (0 <= z < 256 ^ Z.of_nat n)%Z -> from_be (be_bytes n z) = z.
Proof.
  revert z. induction n as [|n IH]; intros z Hz.
  - change (256 ^ Z.of_nat 0)%Z with 1%Z in Hz. cbn. lia.
  - cbn [be_bytes]. rewrite from_be_app.
    rewrite Nat2Z.inj_succ, Z.pow_succ_r in Hz by lia.
    rewrite IH by lia.
    rewrite b2n_n2b_small by lia. lia.
Qed.

Lemma be_bytes_inj (n : nat) (a b : Z) :
  (0 <= a < 256 ^ Z.of_nat n)%Z -> (0 <= b < 256 ^ Z.of_nat n)%Z ->
  be_bytes n a = be_bytes n b -> a = b.
Proof.
  intros Ha Hb H. rewrite <- (from_be_bytes n a Ha), <- (from_be_bytes n b Hb).
  now rewrite H.
Qed.

Lemma inr_inj {A B} (a b : B) : @inr A B a = inr b -> a = b.
Proof. congruence. Qed.

(** ** Fernet tokens *)

Section FernetFacts.
Import Fernet.

Lemma bytes_eqb_eq (a b : bytes) : bytes_eqb a b = true <-> a = b.
Proof.
  unfold bytes_eqb. destruct (list_eq_dec Byte.byte_eq_dec a b); split;
    congruence.
Qed.

Lemma bytes_eqb_refl (a : bytes) : bytes_eqb a a = true.
Proof. now apply bytes_eqb_eq. Qed.

Lemma fernet_init_good (k : bytes) (f : t) : init k = inr f -> good f.
Proof.
  unfold init. destruct (Base64.urlsafe_b64decode k) as [raw|]; [|discriminate].
  destruct (Nat.eqb_spec (length raw) 32) as [L|]; [|discriminate].
  intros H. apply inr_inj in H. subst f. unfold good. cbn [signing_key encryption_key].
  rewrite length_firstn, length_skipn. lia.
Qed.

Lemma fernet_init_encode (raw : bytes) :
  length raw = 32 ->
  init (Base64.urlsafe_b64encode raw)
  = inr {| signing_key := firstn 16 raw; encryption_key := skipn 16 raw |}.
Proof.
  intros L. unfold init. rewrite b64_decode_encode, L. reflexivity.
Qed.

Context {B : Backend}.

Lemma basic_parts_cons (f : t) (data : bytes) (ts : Z) (iv : bytes) :
  basic_parts f data ts iv
  = x80 :: be_bytes 8 ts ++ iv
        ++ aes_cbc_encrypt (encryption_key f) iv (PKCS7.pad data).
Proof. reflexivity. Qed.

Lemma basic_parts_length (f : t) (data : bytes) (ts : Z) (iv : bytes) :
  length (encryption_key f) = 16 -> length iv = 16 ->
  length (basic_parts f data ts iv) = 25 + length (PKCS7.pad data).
Proof.
  intros Lk Li. rewrite basic_parts_cons. cbn [length].
  rewrite !length_app, be_bytes_length, Li.
  rewrite aes_cbc_length by (auto using pkcs7_pad_length). lia.
Qed.

(** Splitting a token into its signed part and its tag. *)
Lemma split_tag (parts tag : bytes) :
  length tag = 32 ->
  firstn (length (parts ++ tag) - 32) (parts ++ tag) = parts
  /\ skipn (length (parts ++ tag) - 32) (parts ++ tag) = tag.
Proof.
  intros L. rewrite length_app, L.
  replace (length parts + 32 - 32) with (length parts + 0) by lia.
  rewrite firstn_app_2, skipn_app, Nat.add_0_r.
  replace (length parts - length parts) with 0 by lia.
  rewrite skipn_all. cbn [firstn skipn app]. now rewrite app_nil_r.
Qed.

Lemma skipn_exact {A} (n : nat) (a b : list A) :
  length a = n -> skipn n (a ++ b) = b.
Proof.
  intros <-. rewrite skipn_app, skipn_all, Nat.sub_diag. reflexivity.
Qed.

Lemma firstn_exact {A} (n : nat) (a b : list A) :
  length a = n -> firstn n (a ++ b) = a.
Proof.
  intros <-. rewrite firstn_app, firstn_all, Nat.sub_diag. cbn [firstn].
  now rewrite app_nil_r.
Qed.

(** The fields of a token body, as [decrypt] slices them. *)
Lemma token_fields (ts8 iv ct tag : bytes) :
  length ts8 = 8 -> length iv = 16 -> length tag = 32 ->
  let data := (x80 :: ts8 ++ iv ++ ct) ++ tag in
  firstn 16 (skipn 9 data) = iv
  /\ skipn 25 (firstn (length data - 32) data) = ct.
Proof.
  intros L8 Li Lt data. split.
  - unfold data. cbn [app]. rewrite skipn_cons.
    rewrite <- !app_assoc. rewrite (skipn_exact _ _ _ L8).
    apply firstn_exact, Li.
  - unfold data. rewrite (proj1 (split_tag (x80 :: ts8 ++ iv ++ ct) tag Lt)).
    rewrite skipn_cons.
    rewrite app_assoc. apply skipn_exact.
    rewrite length_app. lia.
Qed.

Lemma fernet_decrypt_token (f : t) (data : bytes) (ts : Z) (iv tok : bytes) :
  length (encryption_key f) = 16 -> length iv = 16 ->
  encrypt_from_parts f data ts iv = inr tok ->
  decrypt f tok = inr data.
Proof.
  intros Lk Li H. unfold encrypt_from_parts in H.
  destruct ((0 <=? ts)%Z && (ts <? 2 ^ 64)%Z); [|discriminate].
  apply inr_inj in H. subst tok.
  unfold decrypt. rewrite b64_decode_encode.
  pose proof (basic_parts_length f data ts iv Lk Li) as Lp.
  pose proof (hmac_sha256_length (signing_key f) (basic_parts f data ts iv)) as Lt.
  destruct (split_tag (basic_parts f data ts iv) _ Lt) as [Ef Es].
  unfold verify_signature. rewrite Ef, Es, bytes_eqb_refl.
  set (tag := hmac_sha256 (signing_key f) (basic_parts f data ts iv)) in *.
  destruct (token_fields (be_bytes 8 ts) iv
              (aes_cbc_encrypt (encryption_key f) iv (PKCS7.pad data)) tag
              (be_bytes_length 8 ts) Li Lt) as [Eiv Ect].
  rewrite <- basic_parts_cons in Eiv, Ect. rewrite Ef in Ect.
  rewrite Eiv, Ect, Li.
  rewrite length_app, Lp, Lt.
  rewrite basic_parts_cons at 1. cbn [app].
  change (Byte.eqb x80 x80) with true. cbn [negb Nat.eqb].
  replace (Nat.ltb (25 + length (PKCS7.pad data) + 32) 9) with false
    by (symmetry; apply Nat.ltb_ge; lia).
  rewrite aes_cbc_length by auto using pkcs7_pad_length.
  rewrite pkcs7_pad_length. cbn [Nat.eqb negb].
  rewrite aes_cbc_inverse by auto using pkcs7_pad_length.
  now rewrite pkcs7_unpad_pad.
Qed.


Lemma fernet_token_ascii (f : t) (data : bytes) (ts : Z) (iv tok : bytes) :
  encrypt_from_parts f data ts iv = inr tok -> ascii_bytes tok.
Proof.
  unfold encrypt_from_parts.
  destruct ((0 <=? ts)%Z && (ts <? 2 ^ 64)%Z); [|discriminate].
  intros H. apply inr_inj in H. subst tok. apply b64_ascii.
Qed.

Lemma encrypt_from_parts_ok (f : t) (data : bytes) (ts : Z) (iv : bytes) :
  (0 <= ts < 2 ^ 64)%Z ->
  exists tok, encrypt_from_parts f data ts iv = inr tok.
Proof.
  intros H. unfold encrypt_from_parts.
  replace ((0 <=? ts)%Z && (ts <? 2 ^ 64)%Z) with true; [eauto|].
  symmetry. apply andb_true_iff. split; [apply Z.leb_le | apply Z.ltb_lt]; lia.
Qed.

Lemma app_same_length {A} (a b c d : list A) :
  length a = length b -> a ++ c = b ++ d -> a = b /\ c = d.
Proof.
  revert b. induction a as [|x a IH]; intros [|y b] L H; try discriminate.
  - now split.
  - cbn [app] in H. injection H as -> H. cbn [length] in L.
    destruct (IH b) as [-> ->]; [lia | assumption | now split].
Qed.

(** A token determines the time, the IV and the data it was made of. *)
Lemma encrypt_from_parts_inj (f : t) (d d' : bytes) (ts ts' : Z)
    (iv iv' tok : bytes) :
  length (encryption_key f) = 16 -> length iv = 16 -> length iv' = 16 ->
  encrypt_from_parts f d ts iv = inr tok ->
  encrypt_from_parts f d' ts' iv' = inr tok ->
  ts = ts' /\ iv = iv' /\ d = d'.
Proof.
  intros Lk Li Li' H H'. unfold encrypt_from_parts in H, H'.
  destruct (Z.leb_spec 0 ts); [|discriminate].
  destruct (Z.ltb_spec ts (2 ^ 64)); [|discriminate].
  destruct (Z.leb_spec 0 ts'); [|discriminate].
  destruct (Z.ltb_spec ts' (2 ^ 64)); [|discriminate].
  cbn [andb] in H, H'. apply inr_inj in H, H'. subst tok.
  apply b64_encode_inj in H'.
  pose proof (basic_parts_length f d ts iv Lk Li) as Lp.
  pose proof (basic_parts_length f d' ts' iv' Lk Li') as Lp'.
  assert (E : basic_parts f d' ts' iv' = basic_parts f d ts iv).
  { assert (R : rev (basic_parts f d' ts' iv' ++ hmac_sha256 (signing_key f) (basic_parts f d' ts' iv'))
              = rev (basic_parts f d ts iv ++ hmac_sha256 (signing_key f) (basic_parts f d ts iv)))
      by now rewrite H'.
    rewrite !rev_app_distr in R.
    apply app_same_length in R as [_ R].
    - now apply rev_inj in R.
    - now rewrite !length_rev, !hmac_sha256_length. }
  rewrite !basic_parts_cons in E.
  apply (f_equal (@tl byte)) in E. cbn [tl] in E.
  apply app_same_length in E as [Et E]; [|now rewrite !be_bytes_length].
  apply app_same_length in E as [Ei E]; [|lia].
  assert (P : PKCS7.pad d = PKCS7.pad d').
  { rewrite <- (aes_cbc_inverse (encryption_key f) iv (PKCS7.pad d))
      by auto using pkcs7_pad_length.
    rewrite <- (aes_cbc_inverse (encryption_key f) iv' (PKCS7.pad d'))
      by auto using pkcs7_pad_length.
    now rewrite E, Ei. }
  repeat split.
  - apply (be_bytes_inj 8); [change (256 ^ Z.of_nat 8)%Z with (2 ^ 64)%Z; lia ..|].
    now symmetry.
  - now symmetry.
  - now apply pkcs7_pad_inj.
Qed.

End FernetFacts.

Lemma n2b_eq_mod (n : N) (x : byte) : (n mod 256 = b2n x)%N -> n2b n = x.
Proof.
  intros H. apply b2n_inj. now rewrite b2n_n2b.
Qed.

(** ** The reference backend meets the contract *)

Section ReferenceFacts.
Import Reference.

Lemma reference_shift_lt (k iv : bytes) : (shift_of k iv < 256)%N.
Proof. unfold shift_of. lia. Qed.

Lemma reference_cbc_length (k iv p : bytes) :
  length k = 16 -> length iv = 16 -> length p mod 16 = 0 ->
  length (cbc_encrypt k iv p) = length p.
Proof. intros. apply length_map. Qed.

Lemma reference_cbc_inverse (k iv p : bytes) :
  length k = 16 -> length iv = 16 -> length p mod 16 = 0 ->
  cbc_decrypt k iv (cbc_encrypt k iv p) = p.
Proof.
  intros _ _ _. unfold cbc_decrypt, cbc_encrypt. rewrite map_map.
  rewrite <- (map_id p) at 2. apply map_ext. intros b.
  pose proof (reference_shift_lt k iv). pose proof (b2n_lt b).
  apply n2b_eq_mod. rewrite b2n_n2b. lia.
Qed.

Lemma reference_hmac_length (k m : bytes) : length (hmac k m) = 32.
Proof. unfold hmac. cbn [length]. now rewrite repeat_length. Qed.

Lemma reference_pbkdf2_length (pw salt : bytes) (it : N) (len : nat) :
  length (pbkdf2 pw salt it len) = len.
Proof. apply repeat_length. Qed.

End ReferenceFacts.

Definition reference_backend : Backend := {|
  aes_cbc_encrypt := Reference.cbc_encrypt;
  aes_cbc_decrypt := Reference.cbc_decrypt;
  hmac_sha256 := Reference.hmac;
  pbkdf2_hmac_sha512 := Reference.pbkdf2;
  popen_error := Reference.popen_nul;
  aes_cbc_length := reference_cbc_length;
  aes_cbc_inverse := reference_cbc_inverse;
  hmac_sha256_length := reference_hmac_length;
  pbkdf2_length := reference_pbkdf2_length
|}.

(** The reference key as a [Fernet] object, and the key that [keygen]
    derives from [Reference.hello] in the world [Reference.now]. *)
Definition reference_fernet : Fernet.t :=
  match key_of Reference.key with
  | Some f => f
  | None => {| Fernet.signing_key := []; Fernet.encryption_key := [] |}
  end.

(** The text that [encrypt] returns for [m] under [Reference.key] in
    the world [w]. *)
Definition reference_ciphertext (m : Text) (w : World) : Text :=
  match value (@encrypt reference_backend m Reference.key w) with
  | Some c => c
  | None => []
  end.

Definition reference_derived_key : Text :=
  match @keygen_key reference_backend Reference.hello Reference.now with
  | Some k => k
  | None => []
  end.

(** A text that is no key, and the first layer of [Reference.hello]
    under the reference key. *)
Definition not_a_key : Text := text_of_string "not-a-valid-key".

Definition reference_layer1 : bytes :=
  match UTF8.encode Reference.hello with
  | Some m =>
      match @Spec.authenticated_encrypt reference_backend reference_fernet
              (fst (encrypt_draws Reference.now)) m with
      | Some l => l
      | None => []
      end
  | None => []
  end.

(** A backend whose cipher and MAC do not look at their key.  It meets
    the contract of [Backend]. *)
Definition keyless_backend : Backend := {|
  aes_cbc_encrypt := fun _ _ p => p;
  aes_cbc_decrypt := fun _ _ c => c;
  hmac_sha256 := fun _ _ => repeat x00 32;
  pbkdf2_hmac_sha512 := fun _ _ _ len => repeat x00 len;
  popen_error := fun _ => None;
  aes_cbc_length := fun _ _ _ _ _ _ => eq_refl;
  aes_cbc_inverse := fun _ _ _ _ _ _ => eq_refl;
  hmac_sha256_length := fun _ _ => repeat_length x00 32;
  pbkdf2_length := fun _ _ _ len => repeat_length x00 len
|}.

(** Two more derived keys: 32 bytes [0x01], and 16 bytes [0x00] followed
    by 16 bytes [0x01], which shares its signing half with
    [Reference.key]. *)
Definition other_key : Text :=
  UTF8.ascii_text (Base64.urlsafe_b64encode (repeat x01 32)).

Definition half_other_key : Text :=
  UTF8.ascii_text
    (Base64.urlsafe_b64encode (repeat x00 16 ++ repeat x01 16)).


(** Run the monad: unfold its combinators and the library calls. *)
Ltac run :=
  cbv beta iota zeta delta
    [try_except bind ret call pure_call report print str_encode bytes_decode
     fernet_of Popen or_raise value raises fst snd Fernet.encrypt time urandom
     keygen keygen_try encrypt encrypt_try decrypt decrypt_try].

Section CipherFacts.
Context {B : Backend}.

Lemma decode_token (f : Fernet.t) (d : bytes) (ts : Z) (iv tok : bytes) :
  Fernet.encrypt_from_parts f d ts iv = inr tok ->
  UTF8.decode tok = Some (UTF8.ascii_text tok).
Proof. intros H. eapply utf8_decode_ascii, fernet_token_ascii, H. Qed.

Lemma key_of_split (key : Text) :
  key_of key =
  match UTF8.encode key with
  | Some k => match Fernet.init k with inr f => Some f | inl _ => None end
  | None => None
  end.
Proof. reflexivity. Qed.

Lemma encrypt_value (message key : Text) (w : World) :
  value (encrypt message key w) = Spec.encrypt message key (encrypt_draws w).
Proof.
  unfold Spec.encrypt, Spec.authenticated_encrypt, Spec.absent_on_error, encrypt.
  rewrite key_of_split. unfold encrypt_draws. run.
  destruct (UTF8.encode message) as [m|]; [|reflexivity].
  destruct (UTF8.encode key) as [k|]; [|reflexivity].
  destruct (Fernet.init k) as [e|f]; [reflexivity|].
  cbn [obind entropy entropy_pos clock clock_pos].
  destruct (Fernet.encrypt_from_parts f m _ _) as [e|l1] eqn:E1; [reflexivity|].
  cbn [obind].
  destruct (Fernet.encrypt_from_parts f l1 _ _) as [e|l2] eqn:E2; [reflexivity|].
  cbn [obind]. rewrite (decode_token _ _ _ _ _ E2). reflexivity.
Qed.

Lemma decrypt_value (encrypted_text key : Text) (w : World) :
  value (decrypt (Some encrypted_text) key w)
  = Spec.decrypt encrypted_text key.
Proof.
  unfold Spec.decrypt, Spec.authenticated_decrypt, Spec.absent_on_error, decrypt.
  rewrite key_of_split. run.
  destruct (UTF8.encode key) as [k|]; [|reflexivity].
  destruct (Fernet.init k) as [e|f]; [reflexivity|].
  cbn [obind].
  destruct (UTF8.encode encrypted_text) as [c|]; [|reflexivity].
  cbn [obind].
  destruct (Fernet.decrypt f c) as [e|l1]; [reflexivity|].
  cbn [obind].
  destruct (Fernet.decrypt f l1) as [e|m]; [reflexivity|].
  cbn [obind].
  destruct (UTF8.decode m); reflexivity.
Qed.

Lemma decrypt_none (key : Text) (w : World) :
  value (decrypt None key w) = None.
Proof.
  unfold decrypt. run.
  destruct (UTF8.encode key) as [k|]; [|reflexivity].
  destruct (Fernet.init k) as [e|f]; reflexivity.
Qed.

End CipherFacts.

(** * The module's functions *)

Section Claims.
Context {B : Backend}.

(** A [try] block under the module's [except] clause: its value goes
    through, its exception becomes one printed line and [None]. *)
Lemma try_report (name : string) (body : Py (option Text)) (w : World) :
  try_except body (report name) w =
  match body w with
  | (Return v, w') => (Return v, w')
  | (Raised e l, w') =>
      (Return None,
       printed {| diag_error := e; diag_function := name; diag_line := l |} w')
  end.
Proof.
  unfold try_except. destruct (body w) as [[v|e l] w']; reflexivity.
Qed.

Lemma try_report_returns (name : string) (body : Py (option Text)) (w : World) :
  fst (try_except body (report name) w)
  = Return (value (try_except body (report name) w)).
Proof.
  rewrite try_report. destruct (body w) as [[v|e l] w']; reflexivity.
Qed.

Lemma encrypt_returns (message key : Text) (w : World) :
  fst (encrypt message key w) = Return (value (encrypt message key w)).
Proof. apply try_report_returns. Qed.

Lemma decrypt_encrypt_value (message k1 k2 : Text) (w : World) :
  value (decrypt_encrypt message k1 k2 w)
  = value (decrypt (value (encrypt message k1 w)) k2
             (snd (encrypt message k1 w))).
Proof.
  unfold decrypt_encrypt, bind.
  pose proof (encrypt_returns message k1 w) as R.
  destruct (encrypt message k1 w) as [[v|e l] w']; [reflexivity|].
  discriminate R.
Qed.

Lemma key_of_good (key : Text) (f : Fernet.t) : key_of key = Some f -> good f.
Proof.
  rewrite key_of_split. destruct (UTF8.encode key) as [k|]; [|discriminate].
  destruct (Fernet.init k) as [e|f'] eqn:E; [discriminate|].
  intros H. apply some_inj in H. subst f'. eapply fernet_init_good, E.
Qed.

Lemma encode_scalar (s : Text) :
  Forall UTF8.scalar s -> exists bs, UTF8.encode s = Some bs.
Proof.
  induction 1 as [|c s Hc _ [bs IH]]; [now exists []|].
  cbn [UTF8.encode]. rewrite IH.
  assert (E : exists b, UTF8.encode_cp c = Some b).
  { unfold UTF8.encode_cp, UTF8.scalar in *.
    destruct (N.ltb_spec c 128); [eauto|].
    destruct (N.ltb_spec c 2048); [eauto|].
    destruct (N.ltb_spec c 65536).
    - destruct (N.leb_spec 55296 c); destruct (N.ltb_spec c 57344);
        cbn [andb]; eauto; lia.
    - destruct (N.ltb_spec c 1114112); [eauto | lia]. }
  destruct E as [b ->]. cbn [obind]. eauto.
Qed.

Lemma draws_iv_length (w : World) :
  length (snd (fst (encrypt_draws w))) = 16
  /\ length (snd (snd (encrypt_draws w))) = 16.
Proof. unfold encrypt_draws. cbn [fst snd]. now rewrite !length_map, !length_seq. Qed.

(** Both layers of a successful encryption come off again, outer first. *)
Lemma layers_decrypt (k : Fernet.t) (d1 d2 : Z * bytes) (m layer1 layer2 : bytes) :
  good k -> length (snd d1) = 16 -> length (snd d2) = 16 ->
  Spec.authenticated_encrypt k d1 m = Some layer1 ->
  Spec.authenticated_encrypt k d2 layer1 = Some layer2 ->
  Spec.authenticated_decrypt k layer2 = Some layer1
  /\ Spec.authenticated_decrypt k layer1 = Some m.
Proof.
  unfold Spec.authenticated_encrypt, Spec.authenticated_decrypt,
    Spec.absent_on_error.
  intros [_ Lk] L1 L2 E1 E2.
  destruct (Fernet.encrypt_from_parts k m (fst d1) (snd d1)) as [|t1] eqn:F1;
    [discriminate|]. apply some_inj in E1. subst t1.
  destruct (Fernet.encrypt_from_parts k layer1 (fst d2) (snd d2)) as [|t2] eqn:F2;
    [discriminate|]. apply some_inj in E2. subst t2.
  rewrite (fernet_decrypt_token k layer1 (fst d2) (snd d2) _ Lk L2 F2).
  rewrite (fernet_decrypt_token k m (fst d1) (snd d1) _ Lk L1 F1). now split.
Qed.


(** What a successful encryption is made of. *)
Lemma encrypt_success (message key : Text) (k : Fernet.t) (w : World) :
  Forall UTF8.scalar message -> key_of key = Some k -> clock_ok w ->
  exists m layer1 layer2,
    UTF8.encode message = Some m
    /\ Spec.authenticated_encrypt k (fst (encrypt_draws w)) m = Some layer1
    /\ Spec.authenticated_encrypt k (snd (encrypt_draws w)) layer1 = Some layer2
    /\ ascii_bytes layer2
    /\ value (encrypt message key w) = Some (UTF8.ascii_text layer2).
Proof.
  intros HM HK HC.
  destruct (encode_scalar _ HM) as [m Em].
  destruct (encrypt_from_parts_ok k m _ (snd (fst (encrypt_draws w)))
              (HC (clock_pos w))) as [l1 E1].
  destruct (encrypt_from_parts_ok k l1 _ (snd (snd (encrypt_draws w)))
              (HC (S (clock_pos w)))) as [l2 E2].
  exists m, l1, l2.
  assert (A1 : Spec.authenticated_encrypt k (fst (encrypt_draws w)) m = Some l1).
  { unfold Spec.authenticated_encrypt. cbn [encrypt_draws fst snd] in *.
    now rewrite E1. }
  assert (A2 : Spec.authenticated_encrypt k (snd (encrypt_draws w)) l1 = Some l2).
  { unfold Spec.authenticated_encrypt. cbn [encrypt_draws fst snd] in *.
    now rewrite E2. }
  pose proof (fernet_token_ascii _ _ _ _ _ E2) as A.
  repeat split; try assumption.
  rewrite encrypt_value. unfold Spec.encrypt.
  rewrite Em, HK. cbn [obind]. rewrite A1. cbn [obind]. rewrite A2.
  cbn [obind]. now apply utf8_decode_ascii.
Qed.

Lemma fernet_decrypt_ext (k : Fernet.t) (a b : bytes) :
  Base64.urlsafe_b64decode a = Base64.urlsafe_b64decode b ->
  Fernet.decrypt k a = Fernet.decrypt k b.
Proof. unfold Fernet.decrypt. now intros ->. Qed.

(** [decrypt] reads its text only through the bytes it decodes to. *)
Lemma decrypt_by_token_bytes (t1 t2 key : Text) (w1 w2 : World) (data : bytes) :
  token_bytes t1 = Some data -> token_bytes t2 = Some data ->
  value (decrypt (Some t1) key w1) = value (decrypt (Some t2) key w2).
Proof.
  intros H1 H2. rewrite !decrypt_value. unfold Spec.decrypt.
  destruct (key_of key) as [k|]; [|reflexivity]. cbn [obind].
  unfold token_bytes in H1, H2.
  destruct (UTF8.encode t1) as [b1|]; [|discriminate].
  destruct (UTF8.encode t2) as [b2|]; [|discriminate].
  cbn [obind] in *. unfold Spec.authenticated_decrypt.
  rewrite (fernet_decrypt_ext k b1 b2) by congruence. reflexivity.
Qed.

(** Without a tag that verifies there is no result. *)
Lemma decrypt_unverified (text key : Text) (k : Fernet.t) (w : World) :
  key_of key = Some k -> verifies k text = false ->
  value (decrypt (Some text) key w) = None.
Proof.
  intros HK HV. rewrite decrypt_value. unfold Spec.decrypt.
  rewrite HK. cbn [obind]. unfold verifies, token_bytes in HV.
  destruct (UTF8.encode text) as [c|]; [|reflexivity]. cbn [obind] in *.
  unfold Spec.authenticated_decrypt, Fernet.decrypt.
  destruct (Base64.urlsafe_b64decode c) as [data|]; [|reflexivity].
  destruct data as [|v data']; [reflexivity|].
  destruct (negb (Byte.eqb v x80)); [reflexivity|].
  destruct (Nat.ltb (length (v :: data')) 9); [reflexivity|].
  rewrite HV. reflexivity.
Qed.

Lemma token_bytes_ascii (bs : bytes) :
  ascii_bytes bs ->
  token_bytes (UTF8.ascii_text bs) = Base64.urlsafe_b64decode bs.
Proof. intros A. unfold token_bytes. now rewrite (utf8_encode_ascii _ A). Qed.

(** The text made by [encrypt] decrypts to the message, and so does any
    text that decodes to the same bytes. *)
Lemma decrypt_encrypted (message key : Text) (k : Fernet.t) (w w' : World)
    (c : Text) :
  Forall UTF8.scalar message -> key_of key = Some k -> clock_ok w ->
  value (encrypt message key w) = Some c ->
  value (decrypt (Some c) key w') = Some message.
Proof.
  intros HM HK HC HE.
  destruct (encrypt_success _ _ _ _ HM HK HC) as (m & l1 & l2 & Em & A1 & A2 & A & E).
  rewrite E in HE. apply some_inj in HE. subst c.
  destruct (draws_iv_length w) as [L1 L2].
  destruct (layers_decrypt _ _ _ _ _ _ (key_of_good key _ HK) L1 L2 A1 A2) as [D2 D1].
  rewrite decrypt_value. unfold Spec.decrypt. rewrite HK. cbn [obind].
  rewrite (utf8_encode_ascii _ A). cbn [obind]. rewrite D2. cbn [obind].
  rewrite D1. cbn [obind]. now apply utf8_decode_encode.
Qed.


(** The [try] block of [keygen], step by step. *)
Lemma keygen_try_run (key_name : option Text) (passcode : Text)
    (return_key : option bool) (w : World) :
  keygen_try key_name passcode return_key w =
  match keygen_key passcode w with
  | None => (Raised UnicodeEncodeError 71, w)
  | Some key =>
      match popen_error (setx (key_label key_name) key) with
      | Some e => (Raised e 86, salted w)
      | None =>
          (Return match return_key with Some true => Some key | _ => None end,
           spawn (setx (key_label key_name) key) (salted w))
      end
  end.
Proof.
  unfold keygen_key, keygen_salt, salted, key_label. run.
  destruct (UTF8.encode passcode) as [pw|]; [|reflexivity].
  cbn [obind]. rewrite (utf8_decode_ascii _ (b64_ascii _)).
  destruct (popen_error _) as [e|]; [reflexivity|].
  destruct return_key as [[|]|]; reflexivity.
Qed.

Lemma b64_urlsafe (bs : bytes) :
  forallb urlsafe_char (UTF8.ascii_text (Base64.urlsafe_b64encode bs)) = true.
Proof.
  assert (E : forall v, (v < 64)%N -> urlsafe_char (b2n (Base64.enc_char v)) = true).
  { apply (below_forallb 64 (fun v => urlsafe_char (b2n (Base64.enc_char v)))).
    vm_compute. reflexivity. }
  assert (P : urlsafe_char (b2n Base64.pad_char) = true) by (vm_compute; reflexivity).
  assert (G : forall n (l : bytes), length l <= n ->
    forallb urlsafe_char (UTF8.ascii_text (Base64.urlsafe_b64encode l)) = true).
  { induction n as [|n IH]; intros l Hl.
    - destruct l; [reflexivity | simpl in Hl; lia].
    - destruct l as [|x [|y [|z rest]]];
        cbn [Base64.urlsafe_b64encode UTF8.ascii_text map forallb].
      + reflexivity.
      + pose proof (b2n_lt x). rewrite !E, !P by lia. reflexivity.
      + pose proof (b2n_lt x). pose proof (b2n_lt y).
        rewrite !E, !P by lia. reflexivity.
      + pose proof (b2n_lt x). pose proof (b2n_lt y). pose proof (b2n_lt z).
        rewrite !E by lia. cbn [andb]. apply IH. simpl in Hl. lia. }
  exact (G (length bs) bs (le_n _)).
Qed.

(** C3.  For every valid non-empty passphrase and every label that the
    process spawner accepts, [keygen] called with [return_key=True]
    returns a text over the URL-safe alphabet that decodes to exactly 32
    bytes. *)
Theorem keygen_returns_32_byte_key (key_name : option Text) (passcode : Text)
    (w : World) :
  passcode <> [] ->
  Forall UTF8.scalar passcode ->
  (forall key, keygen_key passcode w = Some key ->
     popen_error (setx (key_label key_name) key) = None) ->
  exists key raw,
    value (keygen key_name passcode (Some true) w) = Some key
    /\ forallb urlsafe_char key = true
    /\ token_bytes key = Some raw
    /\ length raw = 32.
Proof.
  intros _ HP HL. destruct (encode_scalar _ HP) as [pw Epw].
  set (raw := pbkdf2_hmac_sha512 pw (keygen_salt w) 100000%N 32).
  assert (EK : keygen_key passcode w
               = Some (UTF8.ascii_text (Base64.urlsafe_b64encode raw))).
  { unfold keygen_key. now rewrite Epw. }
  exists (UTF8.ascii_text (Base64.urlsafe_b64encode raw)), raw.
  repeat split.
  - unfold keygen. rewrite try_report, keygen_try_run, EK, (HL _ EK).
    reflexivity.
  - apply b64_urlsafe.
  - rewrite (token_bytes_ascii _ (b64_ascii _)). apply b64_decode_encode.
  - apply pbkdf2_length.
Qed.


(** C5, as the code has it.  [keygen] stores the key under the default
    label [ADMIN_USER_KEY] when no label is given ([key_name is None]);
    a label that is given, the empty text included, is used as it is. *)
Theorem keygen_storage_label (key_name : option Text) (passcode : Text)
    (return_key : option bool) (w : World) (key : Text) :
  raises (keygen_try key_name passcode return_key w) = false ->
  keygen_key passcode w = Some key ->
  (key_name = None ->
   processes (snd (keygen key_name passcode return_key w))
   = setx _KEY_NAME key :: processes w)
  /\ (forall label, key_name = Some label ->
      processes (snd (keygen key_name passcode return_key w))
      = setx label key :: processes w).
Proof.
  unfold keygen. rewrite try_report, keygen_try_run. intros R EK.
  rewrite EK in *.
  destruct (popen_error _) as [e|] eqn:P; [discriminate|].
  split; [intros -> | intros label ->]; reflexivity.
Qed.


Lemma try_report_caught (name : string) (body : Py (option Text)) :
  caught_and_reported name body (try_except body (report name)).
Proof.
  intros w. rewrite try_report. unfold raises.
  destruct (body w) as [[v|e l] w']; split; reflexivity.
Qed.

(** C4.  In [keygen], [encrypt] and [decrypt] every exception of the
    [try] block is caught, printed and turned into the result [None];
    no call raises. *)
Theorem failures_caught_and_reported :
  (forall key_name passcode return_key,
     caught_and_reported "keygen" (keygen_try key_name passcode return_key)
       (keygen key_name passcode return_key))
  /\ (forall message key,
        caught_and_reported "encrypt" (encrypt_try message key)
          (encrypt message key))
  /\ (forall encrypted_text key,
        caught_and_reported "decrypt" (decrypt_try encrypted_text key)
          (decrypt encrypted_text key)).
Proof.
  repeat split; intros; apply try_report_caught.
Qed.

(** C1, as the code has it.  For every message without a lone surrogate,
    every key that [Fernet] accepts and a clock within the 64 bits of a
    token's timestamp, [decrypt(encrypt(M, K), K)] returns [M]. *)
Theorem decrypt_encrypt_roundtrip (message key : Text) (w : World) :
  Forall UTF8.scalar message -> valid_key key -> clock_ok w ->
  value (decrypt_encrypt message key key w) = Some message.
Proof.
  intros HM [k HK] HC. rewrite decrypt_encrypt_value.
  destruct (encrypt_success _ _ _ _ HM HK HC) as (m & l1 & l2 & _ & _ & _ & _ & E).
  rewrite E. eapply decrypt_encrypted; eassumption.
Qed.

(** C2.  [encrypt] returns the text of layer 2, the authenticated
    encryption of layer 1, itself the authenticated encryption of the
    message bytes, both under the one key; [decrypt] removes layer 2,
    then layer 1, with that key; and on what [encrypt] made, the first
    removal gives back layer 1 and the second the message bytes. *)
Theorem double_wrap_layers (message key : Text) (w : World) :
  value (encrypt message key w) = Spec.encrypt message key (encrypt_draws w)
  /\ (forall encrypted_text w',
        value (decrypt (Some encrypted_text) key w')
        = Spec.decrypt encrypted_text key)
  /\ (forall k m layer1 layer2,
        key_of key = Some k ->
        Spec.authenticated_encrypt k (fst (encrypt_draws w)) m = Some layer1 ->
        Spec.authenticated_encrypt k (snd (encrypt_draws w)) layer1
        = Some layer2 ->
        Spec.authenticated_decrypt k layer2 = Some layer1
        /\ Spec.authenticated_decrypt k layer1 = Some m).
Proof.
  split; [apply encrypt_value|]. split; [intros; apply decrypt_value|].
  intros k m layer1 layer2 HK A1 A2.
  destruct (draws_iv_length w) as [L1 L2].
  exact (layers_decrypt _ _ _ _ _ _ (key_of_good _ _ HK) L1 L2 A1 A2).
Qed.

(** What one text of a key has encrypted, any text of the same key
    decrypts. *)
Lemma same_key_decrypts (message k1 k2 : Text) (f : Fernet.t) (w : World) :
  Forall UTF8.scalar message -> clock_ok w ->
  key_of k1 = Some f -> key_of k2 = Some f ->
  value (decrypt_encrypt message k1 k2 w) = Some message.
Proof.
  intros HM HC H1 H2. rewrite decrypt_encrypt_value.
  destruct (encrypt_success _ _ _ _ HM H1 HC)
    as (m & l1 & l2 & Em & A1 & A2 & A & E).
  rewrite E.
  destruct (draws_iv_length w) as [L1 L2].
  destruct (layers_decrypt _ _ _ _ _ _ (key_of_good _ _ H1) L1 L2 A1 A2)
    as [D2 D1].
  rewrite decrypt_value. unfold Spec.decrypt. rewrite H2. cbn [obind].
  rewrite (utf8_encode_ascii _ A). cbn [obind]. rewrite D2. cbn [obind].
  rewrite D1. cbn [obind]. now apply utf8_decode_encode.
Qed.

(** [decrypt(encrypt(M, K1), K2)] returns nothing whenever the HMAC tag
    of the outer layer does not verify under [K2]; it returns [M]
    whenever [K1] and [K2] stand for the same 32 key bytes, also when
    the two texts differ. *)
Theorem wrong_key_needs_failed_tag (message k1 k2 : Text) (f1 f2 : Fernet.t)
    (w : World) (c : Text) :
  Forall UTF8.scalar message -> clock_ok w ->
  key_of k1 = Some f1 -> key_of k2 = Some f2 ->
  value (encrypt message k1 w) = Some c ->
  (verifies f2 c = false -> value (decrypt_encrypt message k1 k2 w) = None)
  /\ (f1 = f2 -> value (decrypt_encrypt message k1 k2 w) = Some message).
Proof.
  intros HM HC H1 H2 E. split.
  - intros V. rewrite decrypt_encrypt_value, E.
    now apply (decrypt_unverified c k2 f2).
  - intros <-. now apply (same_key_decrypts message k1 k2 f1).
Qed.

(** The text of a token determines the token. *)
Lemma spec_encrypt_inj (message key : Text) (d d' : (Z * bytes) * (Z * bytes))
    (c : Text) :
  length (snd (fst d)) = 16 -> length (snd (snd d)) = 16 ->
  length (snd (fst d')) = 16 -> length (snd (snd d')) = 16 ->
  Spec.encrypt message key d = Some c ->
  Spec.encrypt message key d' = Some c ->
  d = d'.
Proof.
  intros L1 L2 L1' L2'. unfold Spec.encrypt.
  destruct (UTF8.encode message) as [m|]; [|discriminate].
  destruct (key_of key) as [k|] eqn:HK; [|discriminate]. cbn [obind].
  unfold Spec.authenticated_encrypt, Spec.absent_on_error.
  destruct (Fernet.encrypt_from_parts k m (fst (fst d)) (snd (fst d)))
    as [|l1] eqn:E1; [discriminate|].
  destruct (Fernet.encrypt_from_parts k m (fst (fst d')) (snd (fst d')))
    as [|l1'] eqn:E1'; [discriminate|]. cbn [obind].
  destruct (Fernet.encrypt_from_parts k l1 (fst (snd d)) (snd (snd d)))
    as [|l2] eqn:E2; [discriminate|].
  destruct (Fernet.encrypt_from_parts k l1' (fst (snd d')) (snd (snd d')))
    as [|l2'] eqn:E2'; [discriminate|]. cbn [obind].
  rewrite (utf8_decode_ascii _ (fernet_token_ascii _ _ _ _ _ E2)).
  rewrite (utf8_decode_ascii _ (fernet_token_ascii _ _ _ _ _ E2')).
  intros C C'. apply some_inj in C, C'. rewrite <- C' in C.
  apply ascii_text_inj in C. subst l2'.
  destruct (key_of_good _ _ HK) as [_ Lk].
  assert (X : fst (snd d) = fst (snd d') /\ snd (snd d) = snd (snd d')
              /\ l1 = l1').
  { rewrite <- E2' in E2.
    destruct (Fernet.encrypt_from_parts k l1' (fst (snd d')) (snd (snd d')))
      as [|t] eqn:E; [discriminate|].
    exact (encrypt_from_parts_inj k l1 l1' _ _ _ _ t Lk L2 L2' E2 E). }
  destruct X as (T2 & I2 & X). subst l1'.
  destruct (encrypt_from_parts_inj k m m _ _ _ _ l1 Lk L1 L1' E1 E1')
    as (T1 & I1 & _).
  destruct d as [[t1 i1] [t2 i2]], d' as [[t1' i1'] [t2' i2']].
  cbn [fst snd] in *. congruence.
Qed.

(** C10.  Two calls of [encrypt] on the same message and key that both
    return a ciphertext return different ones as soon as one of the
    values they draw, the clock reading or the IV of either layer,
    differs between the calls. *)
Theorem fresh_draws_fresh_ciphertext (message key : Text) (w1 w2 : World)
    (c1 c2 : Text) :
  value (encrypt message key w1) = Some c1 ->
  value (encrypt message key w2) = Some c2 ->
  encrypt_draws w1 <> encrypt_draws w2 ->
  c1 <> c2.
Proof.
  rewrite !encrypt_value. intros E1 E2 D C. subst c2. apply D.
  destruct (draws_iv_length w1), (draws_iv_length w2).
  eapply spec_encrypt_inj; eassumption.
Qed.

End Claims.

Section TamperFacts.
Import Base64.
Local Open Scope N_scope.


Lemma a2b_loop_data (v : N) (s : list N) q lc pads out :
  v < 64 ->
  a2b_loop (dec_char (enc_char v) :: s) q lc pads out =
  match q with
  | 0%nat => a2b_loop s 1 v 0 out
  | 1%nat => a2b_loop s 2 (v mod 16) 0 (n2b (lc * 4 + v / 16) :: out)
  | 2%nat => a2b_loop s 3 (v mod 4) 0 (n2b (lc * 16 + v / 4) :: out)
  | _ => a2b_loop s 0 0 0 (n2b (lc * 64 + v) :: out)
  end.
Proof.
  intros Hv. destruct (dec_enc_char _ Hv) as (P & A & _).
  cbn [a2b_loop]. rewrite P, A. reflexivity.
Qed.

Lemma a2b_loop_pad (s : list N) q lc pads out :
  a2b_loop (dec_char pad_char :: s) q lc pads out =
  if Nat.leb 2 q then
    if Nat.leb 4 (q + S pads) then Some (rev out)
    else a2b_loop s q lc (S pads) out
  else a2b_loop s q lc pads out.
Proof. reflexivity. Qed.





End TamperFacts.




Lemma ascii_bytes_firstn (n : nat) (bs : bytes) :
  ascii_bytes bs -> ascii_bytes (firstn n bs).
Proof.
  intros A. revert n. unfold ascii_bytes.
  induction A as [|b bs Hb _ IH]; intros [|n]; cbn [firstn];
    try constructor; auto.
Qed.

Lemma ascii_bytes_skipn (n : nat) (bs : bytes) :
  ascii_bytes bs -> ascii_bytes (skipn n bs).
Proof.
  intros A. revert n. unfold ascii_bytes.
  induction A as [|b bs Hb A IH]; intros [|n]; cbn [skipn];
    try constructor; auto.
Qed.


Section TamperClaim.
Context {B : Backend}.

Lemma token_is_encoding (f : Fernet.t) (d : bytes) (ts : Z) (iv tok : bytes) :
  Fernet.encrypt_from_parts f d ts iv = inr tok ->
  exists raw, tok = Base64.urlsafe_b64encode raw.
Proof.
  unfold Fernet.encrypt_from_parts.
  destruct ((0 <=? ts)%Z && (ts <? 2 ^ 64)%Z); [|discriminate].
  intros H. apply inr_inj in H. eauto.
Qed.


(** A text that decodes to the bytes of the ciphertext decrypts to the
    message. *)
Lemma same_bytes_decrypt (message key : Text) (k : Fernet.t)
    (w w' : World) (c c' : Text) :
  Forall UTF8.scalar message -> clock_ok w -> key_of key = Some k ->
  value (encrypt message key w) = Some c ->
  token_bytes c' = token_bytes c ->
  value (decrypt (Some c') key w') = Some message.
Proof.
  intros HM HC HK E T.
  destruct (encrypt_success _ _ _ _ HM HK HC)
    as (m & l1 & l2 & Em & A1 & A2 & A & E').
  assert (D : exists data, token_bytes c = Some data).
  { rewrite E' in E. apply some_inj in E. subst c.
    rewrite (token_bytes_ascii _ A).
    unfold Spec.authenticated_encrypt, Spec.absent_on_error in A2.
    destruct (Fernet.encrypt_from_parts k l1 _ _) as [|t] eqn:F2;
      [discriminate|].
    apply some_inj in A2. subst t.
    destruct (token_is_encoding _ _ _ _ _ F2) as [raw ->].
    rewrite b64_decode_encode. eauto. }
  destruct D as [data D]. rewrite D in T.
  rewrite (decrypt_by_token_bytes _ _ key w' w' data T D).
  now apply (decrypt_encrypted message key k w w').
Qed.


End TamperClaim.

(** * Texts that decode alike

    [urlsafe_b64decode] drops the bits of the last character that fill no
    byte, so one token has several texts. *)

Section Base64Malleability.
Import Base64.
Local Open Scope N_scope.

Lemma b64_encode_app (n : nat) : forall (a b : bytes),
  (length a <= n)%nat -> (length a mod 3 = 0)%nat ->
  urlsafe_b64encode (a ++ b) = urlsafe_b64encode a ++ urlsafe_b64encode b.
Proof.
  induction n as [|n IH]; intros a b Hn Ha.
  - destruct a; [reflexivity | simpl in Hn; lia].
  - destruct a as [|x [|y [|z rest]]]; cbn [length] in Ha.
    + reflexivity.
    + discriminate Ha.
    + discriminate Ha.
    + cbn [app urlsafe_b64encode]. rewrite IH; [reflexivity| |].
      * simpl in Hn. lia.
      * cbn [length] in Hn. lia.
Qed.

Lemma b64_length (n : nat) : forall (bs : bytes),
  (length bs <= n)%nat ->
  length (urlsafe_b64encode bs) = (4 * ((length bs + 2) / 3))%nat.
Proof.
  induction n as [|n IH]; intros bs Hn.
  - destruct bs; [reflexivity | simpl in Hn; lia].
  - destruct bs as [|x [|y [|z rest]]]; try reflexivity.
    cbn [urlsafe_b64encode length]. rewrite IH by (simpl in Hn; lia). lia.
Qed.

(** The last character of the encoding of [3k + 1] bytes holds two bits
    of the last byte; the decoder drops its other four bits. *)
Lemma b64_last_char_bits (a : bytes) (t : byte) :
  (length a mod 3 = 0)%nat ->
  let i := S (length (urlsafe_b64encode a)) in
  let x := enc_char (b2n t mod 4 * 16 + 1) in
  let e := urlsafe_b64encode (a ++ [t]) in
  length e = (i + 3)%nat
  /\ nth i e x00 = enc_char (b2n t mod 4 * 16)
  /\ urlsafe_b64decode (firstn i e ++ x :: skipn (S i) e) = Some (a ++ [t]).
Proof.
  intros Ha i x e. unfold e.
  rewrite (b64_encode_app (length a)) by (auto; lia).
  cbn [urlsafe_b64encode]. unfold i.
  set (ea := urlsafe_b64encode a).
  repeat split.
  - rewrite length_app. cbn [length]. lia.
  - rewrite app_nth2 by lia.
    replace (S (length ea) - length ea)%nat with 1%nat by lia. reflexivity.
  - replace (S (length ea)) with (length ea + 1)%nat by lia.
    rewrite firstn_app_2.
    replace (S (length ea + 1)) with (length ea + 2)%nat by lia.
    rewrite skipn_app, skipn_all2 by lia.
    replace (length ea + 2 - length ea)%nat with 2%nat by lia.
    cbn [firstn skipn app]. rewrite <- app_assoc. cbn [app].
    unfold urlsafe_b64decode.
    change (map (fun b => from_urlsafe (b2n b))) with (map dec_char).
    pose proof (b2n_lt t) as Bt.
    assert (G : forall m (l : bytes) s lc pads out,
              (length l <= m)%nat -> (length l mod 3 = 0)%nat ->
              exists lc' pads',
                a2b_loop (map dec_char (urlsafe_b64encode l ++ s)) 0 lc pads out
                = a2b_loop (map dec_char s) 0 lc' pads' (rev l ++ out)).
    { induction m as [|m IH]; intros l s lc pads out Hm Hl.
      - destruct l; [|simpl in Hm; lia]. exists lc, pads. reflexivity.
      - destruct l as [|p [|q [|r rest]]]; cbn [length] in Hl.
        + exists lc, pads. reflexivity.
        + discriminate Hl.
        + discriminate Hl.
        + cbn [urlsafe_b64encode app map].
          pose proof (b2n_lt p). pose proof (b2n_lt q). pose proof (b2n_lt r).
          rewrite a2b_loop_quantum by lia.
          destruct (split3 p q r) as (-> & -> & ->).
          destruct (IH rest s 0 0%nat (r :: q :: p :: out)) as (lc' & pads' & E).
          * simpl in Hm. lia.
          * cbn [length] in Hm. lia.
          * exists lc', pads'. rewrite E. cbn [rev]. now rewrite <- !app_assoc. }
    destruct (G (length a) a
                [enc_char (b2n t / 4); x; pad_char; pad_char] 0 0%nat []
                (le_n _) Ha) as (lc' & pads' & E).
    unfold ea. rewrite E. cbn [map]. unfold x.
    rewrite !a2b_loop_data by lia. rewrite !a2b_loop_pad.
    cbn [Nat.leb Nat.add rev]. rewrite app_nil_r, rev_involutive.
    do 3 f_equal. apply n2b_eq. lia.
Qed.

End Base64Malleability.

Lemma pkcs7_pad_length_eq (d : bytes) :
  length (PKCS7.pad d) = length d + (16 - length d mod 16).
Proof.
  unfold PKCS7.pad. change PKCS7.block with 16.
  now rewrite length_app, repeat_length.
Qed.

Lemma enc_char_inj (u v : N) :
  (u < 64)%N -> (v < 64)%N -> Base64.enc_char u = Base64.enc_char v -> u = v.
Proof.
  intros Hu Hv E.
  destruct (dec_enc_char _ Hu) as (_ & Au & _).
  destruct (dec_enc_char _ Hv) as (_ & Av & _).
  rewrite E in Au. congruence.
Qed.

(** A list of [n + 1] elements is its first [n] followed by its last. *)
Lemma split_last (n : nat) (l : bytes) :
  length l = S n -> exists a t, l = a ++ [t] /\ length a = n.
Proof.
  intros L. destruct (exists_last (l:=l)) as (a & t & E).
  { intros ->. discriminate L. }
  exists a, t. split; [exact E|].
  rewrite E, length_app in L. cbn [length] in L. lia.
Qed.

Section TextMalleability.
Context {B : Backend}.

Lemma token_raw_length (f : Fernet.t) (d : bytes) (ts : Z) (iv tok : bytes) :
  length (Fernet.encryption_key f) = 16 -> length iv = 16 ->
  Fernet.encrypt_from_parts f d ts iv = inr tok ->
  exists raw, tok = Base64.urlsafe_b64encode raw
              /\ length raw = 57 + length (PKCS7.pad d).
Proof.
  intros Lk Li. unfold Fernet.encrypt_from_parts.
  destruct ((0 <=? ts)%Z && (ts <? 2 ^ 64)%Z); [|discriminate].
  intros H. apply inr_inj in H. eexists. split; [symmetry; exact H|].
  rewrite length_app, hmac_sha256_length, basic_parts_length by assumption.
  lia.
Qed.

(** The text of an encrypted empty message has 228 characters, and its
    character 225, the last before the padding, can be exchanged for
    another without any change to what [decrypt] returns: under every
    backend, key and world. *)
Lemma empty_message_text_malleable (key : Text) (k : Fernet.t)
    (w w' : World) (c : Text) :
  key_of key = Some k -> clock_ok w ->
  value (encrypt [] key w) = Some c ->
  length c = 228
  /\ exists x, x <> nth 225 c 0%N
       /\ value (decrypt (Some (replace_at 225 x c)) key w') = Some [].
Proof.
  intros HK HC E.
  destruct (encrypt_success [] key k w (Forall_nil _) HK HC)
    as (m & l1 & l2 & Em & A1 & A2 & A & E').
  cbn [UTF8.encode] in Em. apply some_inj in Em. subst m.
  destruct (key_of_good _ _ HK) as [_ Lk].
  destruct (draws_iv_length w) as [Li1 Li2].
  unfold Spec.authenticated_encrypt, Spec.absent_on_error in A1, A2.
  destruct (Fernet.encrypt_from_parts k [] _ _) as [|t1] eqn:F1;
    [discriminate|]. apply some_inj in A1. subst t1.
  destruct (Fernet.encrypt_from_parts k l1 _ _) as [|t2] eqn:F2;
    [discriminate|]. apply some_inj in A2. subst t2.
  destruct (token_raw_length _ _ _ _ _ Lk Li1 F1) as (raw1 & -> & R1).
  destruct (token_raw_length _ _ _ _ _ Lk Li2 F2) as (raw2 & -> & R2).
  rewrite pkcs7_pad_length_eq in R1, R2. cbn [length] in R1.
  rewrite (b64_length (length raw1) raw1 (le_n _)) in R2. rewrite R1 in R2.
  change (57 + (4 * ((57 + (0 + (16 - 0 mod 16)) + 2) / 3)
                + (16 - 4 * ((57 + (0 + (16 - 0 mod 16)) + 2) / 3) mod 16)))
    with (S 168) in R2.
  destruct (split_last 168 raw2 R2) as (a & t & -> & La).
  assert (Ha : length a mod 3 = 0) by (rewrite La; reflexivity).
  destruct (b64_last_char_bits a t Ha) as (Le & Ne & De).
  rewrite (b64_length (length a) a (le_n _)), La in Le, Ne, De.
  change (S (4 * ((168 + 2) / 3))) with 225 in Le, Ne, De.
  set (l2 := Base64.urlsafe_b64encode (a ++ [t])) in *.
  set (x := Base64.enc_char (b2n t mod 4 * 16 + 1)) in *.
  rewrite E' in E. apply some_inj in E. subst c.
  split; [unfold UTF8.ascii_text; now rewrite length_map, Le|].
  exists (b2n x). pose proof (b2n_lt t) as Bt. split.
  - unfold UTF8.ascii_text.
    change 0%N with (b2n x00). rewrite map_nth, Ne.
    intros X. apply b2n_inj in X. unfold x in X.
    apply enc_char_inj in X; lia.
  - assert (Ax : ascii_bytes (firstn 225 l2 ++ x :: skipn 226 l2)).
    { apply Forall_app. split; [now apply ascii_bytes_firstn|].
      constructor; [|now apply ascii_bytes_skipn].
      unfold x.
      now destruct (dec_enc_char (b2n t mod 4 * 16 + 1)%N) as (_ & _ & ?);
        [lia|]. }
    assert (T : replace_at 225 (b2n x) (UTF8.ascii_text l2)
                = UTF8.ascii_text (firstn 225 l2 ++ x :: skipn 226 l2)).
    { unfold replace_at, UTF8.ascii_text.
      now rewrite firstn_map, skipn_map, map_app. }
    apply (same_bytes_decrypt [] key k w w' (UTF8.ascii_text l2));
      try assumption; [constructor|].
    rewrite T, !token_bytes_ascii by assumption.
    rewrite De. unfold l2. now rewrite b64_decode_encode.
Qed.

End TextMalleability.

(** * The counterexamples, under every backend *)

Section Generality.
Context {B : Backend}.

(** A message with a lone surrogate is lost under every backend, key
    and world: line 114 raises before anything else happens. *)
Lemma lone_surrogate_lost (k1 k2 : Text) (w : World) :
  value (decrypt_encrypt [0xD800%N] k1 k2 w) = None.
Proof.
  rewrite decrypt_encrypt_value, encrypt_value.
  change (Spec.encrypt [0xD800%N] k1 (encrypt_draws w)) with (@None Text).
  apply decrypt_none.
Qed.

(** The two reference key texts stand for one key. *)
Lemma key_alias_same_key : key_of Reference.key_alias = key_of Reference.key.
Proof. vm_compute. reflexivity. Qed.

(** What was encrypted under one text of a key decrypts under the
    other, under every backend. *)
Lemma key_alias_decrypts (message : Text) (w : World) :
  Forall UTF8.scalar message -> clock_ok w ->
  value (decrypt_encrypt message Reference.key Reference.key_alias w)
  = Some message.
Proof.
  intros HM HC.
  destruct (key_of Reference.key) as [f|] eqn:HK; [|discriminate HK].
  apply (same_key_decrypts message Reference.key Reference.key_alias f);
    [assumption | assumption | exact HK |].
  rewrite key_alias_same_key. exact HK.
Qed.

(** ** Key derivation across calls *)

(** Every call of [keygen] whose passphrase encodes reads 128 bytes of
    entropy that no earlier call has read. *)
Lemma keygen_draws_salt (key_name : option Text) (passcode : Text)
    (return_key : option bool) (w : World) (pw : bytes) :
  UTF8.encode passcode = Some pw ->
  entropy_pos (snd (keygen key_name passcode return_key w))
  = entropy_pos w + 128.
Proof.
  intros E. unfold keygen. rewrite try_report, keygen_try_run.
  unfold keygen_key. rewrite E. cbn [obind].
  destruct (popen_error _); [reflexivity|].
  reflexivity.
Qed.

(** The keys of two calls are the same text exactly when PBKDF2 gives
    the same 32 bytes for the two salts. *)
Lemma keygen_keys_equal_iff (passcode : Text) (pw : bytes) (w1 w2 : World) :
  UTF8.encode passcode = Some pw ->
  keygen_key passcode w1 = keygen_key passcode w2
  <-> pbkdf2_hmac_sha512 pw (keygen_salt w1) 100000%N 32
      = pbkdf2_hmac_sha512 pw (keygen_salt w2) 100000%N 32.
Proof.
  intros E. unfold keygen_key. rewrite E. cbn [obind]. split.
  - intros H. apply some_inj in H. apply ascii_text_inj in H.
    now apply b64_encode_inj in H.
  - now intros ->.
Qed.

End Generality.

(** * The claims at concrete inputs, on the reference backend *)

Lemma hello_scalar : Forall UTF8.scalar Reference.hello.
Proof. repeat constructor; left; reflexivity. Qed.

Lemma reference_key_valid : valid_key Reference.key.
Proof. exists reference_fernet. vm_compute. reflexivity. Qed.

Lemma reference_key_derived : derived_key Reference.key.
Proof. exists (repeat x00 32). split; reflexivity. Qed.

Lemma reference_clock_ok : clock_ok Reference.now.
Proof. intros n. cbn. lia. Qed.

Lemma decrypt_encrypt_roundtrip_witness :
  value (@decrypt_encrypt reference_backend Reference.hello Reference.key
           Reference.key Reference.now)
  = Some Reference.hello
  /\ value (@decrypt_encrypt reference_backend [] Reference.key
              Reference.key Reference.now)
     = Some [].
Proof.
  split.
  - apply (@decrypt_encrypt_roundtrip reference_backend).
    + exact hello_scalar.
    + exact reference_key_valid.
    + exact reference_clock_ok.
  - apply (@decrypt_encrypt_roundtrip reference_backend).
    + constructor.
    + exact reference_key_valid.
    + exact reference_clock_ok.
Defined.

(** C1 fails on a message that holds a lone surrogate: line 114 raises
    [UnicodeEncodeError], [encrypt] returns [None], and [decrypt] of
    [None] returns [None]. *)
Lemma roundtrip_lost_on_lone_surrogate :
  derived_key Reference.key
  /\ clock_ok Reference.now
  /\ value (@decrypt_encrypt reference_backend [0xD800%N] Reference.key
              Reference.key Reference.now)
     = None.
Proof.
  split; [exact reference_key_derived|].
  split; [exact reference_clock_ok|].
  vm_compute. reflexivity.
Qed.

Lemma double_wrap_layers_witness :
  value (@encrypt reference_backend Reference.hello Reference.key
           Reference.now)
  = @Spec.encrypt reference_backend Reference.hello Reference.key
      (encrypt_draws Reference.now).
Proof.
  exact (proj1 (@double_wrap_layers reference_backend Reference.hello
                  Reference.key Reference.now)).
Defined.

Lemma keygen_returns_32_byte_key_witness :
  exists key raw,
    value (@keygen reference_backend (Some (text_of_string "TEST_KEY"))
             Reference.hello (Some true) Reference.now) = Some key
    /\ forallb urlsafe_char key = true
    /\ token_bytes key = Some raw
    /\ length raw = 32.
Proof.
  apply (@keygen_returns_32_byte_key reference_backend).
  - discriminate.
  - exact hello_scalar.
  - intros key H. vm_compute in H. apply some_inj in H. subst key.
    vm_compute. reflexivity.
Defined.


Lemma keygen_storage_label_witness :
  processes (snd (@keygen reference_backend None Reference.hello None
                    Reference.now))
  = [setx _KEY_NAME reference_derived_key].
Proof.
  refine (proj1 (@keygen_storage_label reference_backend None Reference.hello
                   None Reference.now reference_derived_key _ _) eq_refl).
  - vm_compute. reflexivity.
  - vm_compute. reflexivity.
Defined.

(** C5 fails on the empty label: it is not [None], so line 86 runs
    [setx] with an empty name instead of [ADMIN_USER_KEY]. *)
Lemma empty_label_not_defaulted :
  raises (@keygen_try reference_backend (Some []) Reference.hello None
            Reference.now) = false
  /\ processes (snd (@keygen reference_backend (Some []) Reference.hello None
                       Reference.now))
     = [setx [] reference_derived_key]
  /\ setx [] reference_derived_key <> setx _KEY_NAME reference_derived_key.
Proof.
  split; [vm_compute; reflexivity|].
  split; [vm_compute; reflexivity|].
  vm_compute. discriminate.
Qed.

Lemma wrong_key_needs_failed_tag_witness :
  value (@decrypt_encrypt reference_backend Reference.hello Reference.key
           Reference.key_alias Reference.now)
  = Some Reference.hello.
Proof.
  refine (proj2 (@wrong_key_needs_failed_tag reference_backend Reference.hello
                   Reference.key Reference.key_alias reference_fernet
                   reference_fernet Reference.now
                   (reference_ciphertext Reference.hello Reference.now)
                   hello_scalar reference_clock_ok _ _ _) eq_refl).
  - vm_compute. reflexivity.
  - vm_compute. reflexivity.
  - vm_compute. reflexivity.
Defined.

(** Two key texts of the same 32 bytes: the last character of a key
    carries two bits that [urlsafe_b64decode] drops, so [AAAA...AAB=],
    a text that [keygen] cannot make, is another text of the key
    [AAAA...AAA=]. *)
Lemma other_text_of_key_decrypts :
  Reference.key <> Reference.key_alias
  /\ valid_key Reference.key
  /\ valid_key Reference.key_alias
  /\ value (@decrypt_encrypt reference_backend Reference.hello Reference.key
              Reference.key_alias Reference.now)
     = Some Reference.hello.
Proof.
  split; [vm_compute; discriminate|].
  split; [exact reference_key_valid|].
  split; [exists reference_fernet; vm_compute; reflexivity|].
  vm_compute. reflexivity.
Qed.



Lemma fresh_draws_fresh_ciphertext_witness :
  encrypt_draws Reference.now <> encrypt_draws Reference.again
  /\ reference_ciphertext Reference.hello Reference.now
     <> reference_ciphertext Reference.hello Reference.again.
Proof.
  assert (D : encrypt_draws Reference.now <> encrypt_draws Reference.again)
    by (vm_compute; discriminate).
  split; [exact D|].
  refine (@fresh_draws_fresh_ciphertext reference_backend Reference.hello
            Reference.key Reference.now Reference.again
            (reference_ciphertext Reference.hello Reference.now)
            (reference_ciphertext Reference.hello Reference.again) _ _ D).
  - vm_compute. reflexivity.
  - vm_compute. reflexivity.
Defined.

(** * Further properties of the three functions *)

Section Further.
Context {B : Backend}.

(** ** Keys that [Fernet] refuses *)

Lemma fernet_of_refused (line : nat) (key : Text) (w : World) :
  key_of key = None ->
  exists e, fernet_of line key w = (Raised e line, w).
Proof.
  rewrite key_of_split. unfold fernet_of. run.
  destruct (UTF8.encode key) as [k|]; [|eauto].
  destruct (Fernet.init k) as [e|f]; [eauto | discriminate].
Qed.

(** X1.  With a message that encodes and a key that [Fernet] refuses,
    [encrypt] returns [None] and prints the error of line 116; it has
    then read neither the clock nor any entropy. *)
Theorem encrypt_refuses_key (message key : Text) (m : bytes) (w : World) :
  UTF8.encode message = Some m -> key_of key = None ->
  exists e,
    encrypt message key w
    = (Return None,
       printed {| diag_error := e; diag_function := "encrypt";
                  diag_line := 116 |} w).
Proof.
  intros Em HK. destruct (fernet_of_refused 116 key w HK) as [e F].
  exists e. unfold encrypt. rewrite try_report.
  unfold encrypt_try, bind at 1. unfold str_encode, pure_call, call, bind.
  rewrite Em. cbn [or_raise]. rewrite F. reflexivity.
Qed.

(** X2.  With a key that [Fernet] refuses, [decrypt] returns [None] and
    prints the error of line 144, whatever the text is, [None]
    included: the key is looked at first. *)
Theorem decrypt_refuses_key (encrypted_text : option Text) (key : Text)
    (w : World) :
  key_of key = None ->
  exists e,
    decrypt encrypted_text key w
    = (Return None,
       printed {| diag_error := e; diag_function := "decrypt";
                  diag_line := 144 |} w).
Proof.
  intros HK. destruct (fernet_of_refused 144 key w HK) as [e F].
  exists e. unfold decrypt. rewrite try_report.
  unfold decrypt_try, bind at 1. rewrite F. reflexivity.
Qed.

Lemma wrong_length_refused (raw : bytes) :
  length raw <> 32 ->
  key_of (UTF8.ascii_text (Base64.urlsafe_b64encode raw)) = None.
Proof.
  intros L. rewrite key_of_split, (utf8_encode_ascii _ (b64_ascii raw)).
  unfold Fernet.init. rewrite b64_decode_encode.
  destruct (Nat.eqb_spec (length raw) 32); [contradiction | reflexivity].
Qed.

(** X3.  The URL-safe encoding of a byte string of any length other than
    32 is no key: [encrypt] and [decrypt] return [None] for it. *)
Theorem wrong_length_key_refused (raw : bytes) (message : Text)
    (encrypted_text : option Text) (w : World) :
  length raw <> 32 ->
  value (encrypt message (UTF8.ascii_text (Base64.urlsafe_b64encode raw)) w)
  = None
  /\ value (decrypt encrypted_text
              (UTF8.ascii_text (Base64.urlsafe_b64encode raw)) w)
     = None.
Proof.
  intros L. pose proof (wrong_length_refused raw L) as HK. split.
  - rewrite encrypt_value. unfold Spec.encrypt. rewrite HK.
    destruct (UTF8.encode message); reflexivity.
  - destruct (fernet_of_refused 144 _ w HK) as [e F].
    unfold decrypt. rewrite try_report.
    unfold decrypt_try, bind at 1. rewrite F. reflexivity.
Qed.

(** ** [keygen] *)

Lemma keygen_value_key (key_name : option Text) (passcode : Text)
    (return_key : option bool) (w : World) (key : Text) :
  value (keygen key_name passcode return_key w) = Some key ->
  keygen_key passcode w = Some key
  /\ popen_error (setx (key_label key_name) key) = None
  /\ return_key = Some true.
Proof.
  unfold keygen. rewrite try_report, keygen_try_run.
  destruct (keygen_key passcode w) as [k|]; [|discriminate].
  destruct (popen_error (setx (key_label key_name) k)) as [e|] eqn:P;
    [discriminate|].
  destruct return_key as [[|]|]; try discriminate.
  intros H. apply some_inj in H. subst k. auto.
Qed.

Lemma keygen_key_derived (passcode : Text) (w : World) (key : Text) :
  keygen_key passcode w = Some key -> derived_key key.
Proof.
  unfold keygen_key. destruct (UTF8.encode passcode) as [pw|]; [|discriminate].
  intros H. apply some_inj in H. subst key.
  eexists. split; [apply pbkdf2_length | reflexivity].
Qed.

Lemma derived_key_of (key : Text) :
  derived_key key -> exists f, key_of key = Some f.
Proof.
  intros (raw & L & ->).
  rewrite key_of_split, (utf8_encode_ascii _ (b64_ascii raw)),
    (fernet_init_encode raw L). eauto.
Qed.

(** X4.  A key that [keygen] returns is a key for [encrypt] and
    [decrypt]: what is encrypted under it decrypts under it to the
    message. *)
Theorem keygen_key_round_trips (key_name : option Text) (passcode : Text)
    (return_key : option bool) (w : World) (key message : Text) (w' : World) :
  value (keygen key_name passcode return_key w) = Some key ->
  Forall UTF8.scalar message -> clock_ok w' ->
  value (decrypt_encrypt message key key w') = Some message.
Proof.
  intros K HM HC. destruct (keygen_value_key _ _ _ _ _ K) as (KK & _ & _).
  destruct (derived_key_of key (keygen_key_derived _ _ _ KK)) as [f HK].
  now apply (same_key_decrypts message key key f).
Qed.

(** X5.  The key that [keygen] returns is the key that it has stored:
    the one process it has started is [setx] with the label and that
    key, and nothing was printed. *)
Theorem keygen_stores_returned_key (key_name : option Text) (passcode : Text)
    (return_key : option bool) (w : World) (key : Text) :
  value (keygen key_name passcode return_key w) = Some key ->
  processes (snd (keygen key_name passcode return_key w))
  = setx (key_label key_name) key :: processes w
  /\ stdout (snd (keygen key_name passcode return_key w)) = stdout w.
Proof.
  intros K. destruct (keygen_value_key _ _ _ _ _ K) as (KK & P & ->).
  unfold keygen. rewrite try_report, keygen_try_run, KK, P. split; reflexivity.
Qed.

(** X6.  When [Popen] raises, the key is lost: [keygen] returns [None]
    also for [return_key=True], prints the error of line 86 and has
    stored nothing, though the salt has been drawn. *)
Theorem keygen_loses_key_when_popen_raises (key_name : option Text)
    (passcode : Text) (return_key : option bool) (w : World) (key : Text)
    (e : exn) :
  keygen_key passcode w = Some key ->
  popen_error (setx (key_label key_name) key) = Some e ->
  keygen key_name passcode return_key w
  = (Return None,
     printed {| diag_error := e; diag_function := "keygen";
                diag_line := 86 |} (salted w))
  /\ processes (snd (keygen key_name passcode return_key w)) = processes w
  /\ entropy_pos (snd (keygen key_name passcode return_key w))
     = entropy_pos w + 128.
Proof.
  intros KK P. unfold keygen. rewrite try_report, keygen_try_run, KK, P.
  repeat split.
Qed.

(** X7.  A passphrase that does not encode stops [keygen] on line 71:
    it returns [None] and prints, and has drawn no salt and started no
    process. *)
Theorem keygen_refuses_passphrase (key_name : option Text) (passcode : Text)
    (return_key : option bool) (w : World) :
  UTF8.encode passcode = None ->
  keygen key_name passcode return_key w
  = (Return None,
     printed {| diag_error := UnicodeEncodeError; diag_function := "keygen";
                diag_line := 71 |} w).
Proof.
  intros E. unfold keygen. rewrite try_report, keygen_try_run.
  unfold keygen_key. rewrite E. reflexivity.
Qed.


(** ** What the calls touch *)

(** X8.  A call of [encrypt] that returns a ciphertext has read the
    clock twice and 32 bytes of entropy, 16 for the IV of each layer,
    and has printed nothing and started no process. *)
Theorem encrypt_reads_two_ivs (message key : Text) (w : World) (c : Text) :
  value (encrypt message key w) = Some c ->
  entropy_pos (snd (encrypt message key w)) = entropy_pos w + 32
  /\ clock_pos (snd (encrypt message key w)) = S (S (clock_pos w))
  /\ stdout (snd (encrypt message key w)) = stdout w
  /\ processes (snd (encrypt message key w)) = processes w.
Proof.
  unfold encrypt. rewrite try_report. run.
  destruct (UTF8.encode message) as [m|]; [|discriminate].
  destruct (UTF8.encode key) as [k|]; [|discriminate].
  destruct (Fernet.init k) as [e|f]; [discriminate|].
  destruct (Fernet.encrypt_from_parts f m _ _) as [e|l1]; [discriminate|].
  destruct (Fernet.encrypt_from_parts f l1 _ _) as [e|l2]; [discriminate|].
  destruct (UTF8.decode l2); [|discriminate].
  intros _. cbn [snd entropy_pos clock_pos stdout processes].
  repeat split. lia.
Qed.

(** X9.  [decrypt] reads neither the clock nor the entropy and starts no
    process: what it returns is the same in every world, and it leaves
    the world as it was when it returns a text, and with one more
    printed line when it returns [None]. *)
Theorem decrypt_touches_only_stdout (encrypted_text : option Text)
    (key : Text) (w1 w2 : World) :
  value (decrypt encrypted_text key w1) = value (decrypt encrypted_text key w2)
  /\ ((exists text, decrypt encrypted_text key w1 = (Return (Some text), w1))
      \/ (exists e line,
            decrypt encrypted_text key w1
            = (Return None,
               printed {| diag_error := e; diag_function := "decrypt";
                          diag_line := line |} w1))).
Proof.
  unfold decrypt. rewrite !try_report. run.
  destruct (UTF8.encode key) as [k|]; [|split; [reflexivity | right; eauto]].
  destruct (Fernet.init k) as [e|f]; [split; [reflexivity | right; eauto]|].
  destruct encrypted_text as [s|]; [|split; [reflexivity | right; eauto]].
  destruct (UTF8.encode s) as [c|]; [|split; [reflexivity | right; eauto]].
  destruct (Fernet.decrypt f c) as [e|l1];
    [split; [reflexivity | right; eauto]|].
  destruct (Fernet.decrypt f l1) as [e|m];
    [split; [reflexivity | right; eauto]|].
  destruct (UTF8.decode m) as [t|]; [|split; [reflexivity | right; eauto]].
  split; [reflexivity | left; eauto].
Qed.

(** ** The shape of a ciphertext *)

Lemma encode_cp_nonempty (c : N) (bs : bytes) :
  UTF8.encode_cp c = Some bs -> 1 <= length bs.
Proof.
  unfold UTF8.encode_cp.
  destruct (c <? 128)%N; [intros H; apply some_inj in H; subst; simpl; lia|].
  destruct (c <? 2048)%N; [intros H; apply some_inj in H; subst; simpl; lia|].
  destruct (c <? 65536)%N.
  { destruct ((55296 <=? c)%N && (c <? 57344)%N); [discriminate|].
    intros H; apply some_inj in H; subst; simpl; lia. }
  destruct (c <? 1114112)%N; [|discriminate].
  intros H; apply some_inj in H; subst; simpl; lia.
Qed.

Lemma utf8_encode_length (s : Text) (bs : bytes) :
  UTF8.encode s = Some bs -> length s <= length bs.
Proof.
  revert bs. induction s as [|c s IH]; intros bs H; cbn [UTF8.encode] in H.
  - apply some_inj in H. subst. simpl. lia.
  - apply obind_some in H as (b1 & Hc & H).
    apply obind_some in H as (b2 & Hs & H). apply some_inj in H. subst bs.
    rewrite length_app. cbn [length].
    pose proof (encode_cp_nonempty _ _ Hc). pose proof (IH _ Hs). lia.
Qed.

Lemma token_length_of (f : Fernet.t) (d : bytes) (ts : Z) (iv tok : bytes) :
  length (Fernet.encryption_key f) = 16 -> length iv = 16 ->
  Fernet.encrypt_from_parts f d ts iv = inr tok ->
  length tok = token_length (length d).
Proof.
  intros Lk Li F.
  destruct (token_raw_length f d ts iv tok Lk Li F) as (raw & -> & R).
  rewrite (b64_length (length raw) raw (le_n _)), R, pkcs7_pad_length_eq.
  unfold token_length. f_equal. f_equal. lia.
Qed.

(** X10.  The text that [encrypt] returns is over the URL-safe alphabet,
    its length is fixed by the number of bytes of the message alone
    (228 characters for the empty message), and it is longer than the
    message, so it is never the message itself. *)
Theorem ciphertext_shape (message key : Text) (m : bytes) (w : World)
    (c : Text) :
  UTF8.encode message = Some m ->
  value (encrypt message key w) = Some c ->
  forallb urlsafe_char c = true
  /\ length c = ciphertext_length (length m)
  /\ length message < length c
  /\ c <> message.
Proof.
  intros Em E. rewrite encrypt_value in E. unfold Spec.encrypt in E.
  rewrite Em in E. cbn [obind] in E.
  destruct (key_of key) as [k|] eqn:HK; [|discriminate]. cbn [obind] in E.
  destruct (key_of_good _ _ HK) as [_ Lk].
  destruct (draws_iv_length w) as [L1 L2].
  unfold Spec.authenticated_encrypt, Spec.absent_on_error in E.
  destruct (Fernet.encrypt_from_parts k m _ _) as [|l1] eqn:F1;
    [discriminate|]. cbn [obind] in E.
  destruct (Fernet.encrypt_from_parts k l1 _ _) as [|l2] eqn:F2;
    [discriminate|]. cbn [obind] in E.
  rewrite (utf8_decode_ascii _ (fernet_token_ascii _ _ _ _ _ F2)) in E.
  apply some_inj in E. subst c.
  pose proof (token_length_of _ _ _ _ _ Lk L1 F1) as T1.
  pose proof (token_length_of _ _ _ _ _ Lk L2 F2) as T2.
  destruct (token_is_encoding _ _ _ _ _ F2) as [raw R].
  assert (Len : length (UTF8.ascii_text l2) = ciphertext_length (length m)).
  { unfold UTF8.ascii_text, ciphertext_length.
    now rewrite length_map, T2, T1. }
  assert (Lt : length message < length (UTF8.ascii_text l2)).
  { rewrite Len. pose proof (utf8_encode_length _ _ Em).
    unfold ciphertext_length, token_length. lia. }
  repeat split.
  - rewrite R. apply b64_urlsafe.
  - exact Len.
  - exact Lt.
  - intros X. rewrite X in Lt. lia.
Qed.

(** ** Texts that are not doubly wrapped *)

(** X11.  [decrypt] always removes two layers.  On the text of a message
    that was wrapped once it does not return the message: it goes on to
    read the message bytes as a token, and returns what that gives. *)
Theorem decrypt_of_single_layer (key : Text) (k : Fernet.t) (d : Z * bytes)
    (m layer1 : bytes) (w : World) :
  key_of key = Some k -> length (snd d) = 16 ->
  Spec.authenticated_encrypt k d m = Some layer1 ->
  value (decrypt (Some (UTF8.ascii_text layer1)) key w)
  = (x <-? Spec.authenticated_decrypt k m ; UTF8.decode x).
Proof.
  intros HK Li A. destruct (key_of_good _ _ HK) as [_ Lk].
  unfold Spec.authenticated_encrypt, Spec.absent_on_error in A.
  destruct (Fernet.encrypt_from_parts k m (fst d) (snd d)) as [|t] eqn:F;
    [discriminate|]. apply some_inj in A. subst t.
  rewrite decrypt_value. unfold Spec.decrypt. rewrite HK. cbn [obind].
  rewrite (utf8_encode_ascii _ (fernet_token_ascii _ _ _ _ _ F)).
  cbn [obind]. unfold Spec.authenticated_decrypt at 1.
  rewrite (fernet_decrypt_token k m (fst d) (snd d) layer1 Lk Li F).
  reflexivity.
Qed.

(** X12.  When [encrypt] returns [None], [decrypt(encrypt(M, K1), K2)]
    with a key [K2] that [Fernet] accepts prints two lines: the error of
    [encrypt], then the [AttributeError] of line 145, where [decrypt]
    asks [None] for its [encode]. *)
Theorem failed_encrypt_is_reported_twice (message k1 k2 : Text)
    (f : Fernet.t) (w : World) :
  value (encrypt message k1 w) = None -> key_of k2 = Some f ->
  value (decrypt_encrypt message k1 k2 w) = None
  /\ exists e line,
       stdout (snd (decrypt_encrypt message k1 k2 w))
       = {| diag_error := AttributeError; diag_function := "decrypt";
            diag_line := 145 |}
         :: {| diag_error := e; diag_function := "encrypt";
               diag_line := line |}
         :: stdout w.
Proof.
  intros E HK. rewrite key_of_split in HK.
  destruct (UTF8.encode k2) as [kb|] eqn:Ek; [|discriminate].
  destruct (Fernet.init kb) as [|f'] eqn:Ei; [discriminate|].
  assert (D : forall w0, decrypt None k2 w0
              = (Return None,
                 printed {| diag_error := AttributeError;
                            diag_function := "decrypt"; diag_line := 145 |} w0)).
  { intros w0. unfold decrypt. rewrite try_report. run.
    rewrite Ek, Ei. reflexivity. }
  revert E. unfold decrypt_encrypt, bind, encrypt. rewrite try_report.
  destruct (encrypt_try message k1 w) as [[v|e l] w1] eqn:T.
  - (* the try block of encrypt returns a text whenever it returns *)
    intros E. exfalso. revert T E. unfold encrypt_try. run.
    destruct (UTF8.encode message) as [m|]; [|discriminate].
    destruct (UTF8.encode k1) as [k|]; [|discriminate].
    destruct (Fernet.init k) as [e|g]; [discriminate|].
    destruct (Fernet.encrypt_from_parts g m _ _) as [e|l1]; [discriminate|].
    destruct (Fernet.encrypt_from_parts g l1 _ _) as [e|l2]; [discriminate|].
    destruct (UTF8.decode l2) as [t|]; [|discriminate].
    intros T E. assert (V : v = Some t) by congruence.
    rewrite V in E. discriminate E.
  - intros _. rewrite D. split; [reflexivity|]. exists e, l.
    cbn [snd printed stdout]. do 2 f_equal.
    (* the try block of encrypt prints nothing *)
    revert T. unfold encrypt_try. run.
    destruct (UTF8.encode message) as [m|];
      [|intros T; inversion T; reflexivity].
    destruct (UTF8.encode k1) as [k|]; [|intros T; inversion T; reflexivity].
    destruct (Fernet.init k) as [e'|g]; [intros T; inversion T; reflexivity|].
    destruct (Fernet.encrypt_from_parts g m _ _) as [e'|l1];
      [intros T; inversion T; reflexivity|].
    destruct (Fernet.encrypt_from_parts g l1 _ _) as [e'|l2];
      [intros T; inversion T; reflexivity|].
    destruct (UTF8.decode l2); intros T; inversion T; reflexivity.
Qed.


(** X13.  A message that does not encode stops [encrypt] on line 114,
    before the key is looked at: it returns [None] and prints, whatever
    the key is, and has read neither the clock nor any entropy. *)
Theorem encrypt_refuses_message (message key : Text) (w : World) :
  UTF8.encode message = None ->
  encrypt message key w
  = (Return None,
     printed {| diag_error := UnicodeEncodeError; diag_function := "encrypt";
                diag_line := 114 |} w).
Proof.
  intros E. unfold encrypt. rewrite try_report.
  unfold encrypt_try, bind at 1. unfold str_encode, pure_call, call.
  rewrite E. reflexivity.
Qed.

(** X14.  A text that is no token, because its bytes do not decode, or
    decode to fewer than 9 bytes (the empty text does) or to bytes that
    do not start with the version byte [0x80], makes [decrypt] return
    [None] and print [InvalidToken] for line 145. *)
Theorem decrypt_refuses_non_token (text key : Text) (k : Fernet.t)
    (b : bytes) (w : World) :
  key_of key = Some k -> UTF8.encode text = Some b ->
  (forall data, Base64.urlsafe_b64decode b = Some data ->
     length data < 9 \/ hd x00 data <> x80) ->
  decrypt (Some text) key w
  = (Return None,
     printed {| diag_error := InvalidToken; diag_function := "decrypt";
                diag_line := 145 |} w).
Proof.
  intros HK Eb H. rewrite key_of_split in HK.
  destruct (UTF8.encode key) as [kb|] eqn:Ek; [|discriminate].
  destruct (Fernet.init kb) as [|f] eqn:Ei; [discriminate|].
  apply some_inj in HK. subst f.
  unfold decrypt. rewrite try_report. run. rewrite Ek, Ei, Eb.
  unfold Fernet.decrypt.
  destruct (Base64.urlsafe_b64decode b) as [data|]; [|reflexivity].
  destruct data as [|v data']; [reflexivity|].
  destruct (H _ eq_refl) as [L|V].
  - destruct (Byte.eqb v x80); cbn [negb]; [|reflexivity].
    replace (Nat.ltb (length (v :: data')) 9) with true
      by (symmetry; now apply Nat.ltb_lt).
    reflexivity.
  - cbn [hd] in V. destruct (Byte.eqb v x80) eqn:Ev; [|reflexivity].
    apply Byte.byte_dec_bl in Ev. contradiction.
Qed.

End Further.

(** ** The further properties at concrete inputs *)

Lemma encrypt_refuses_key_witness :
  exists e,
    @encrypt reference_backend Reference.hello not_a_key Reference.now
    = (Return None,
       printed {| diag_error := e; diag_function := "encrypt";
                  diag_line := 116 |} Reference.now).
Proof.
  refine (@encrypt_refuses_key reference_backend Reference.hello not_a_key
            (map n2b Reference.hello) Reference.now _ _).
  - vm_compute. reflexivity.
  - vm_compute. reflexivity.
Defined.

Lemma decrypt_refuses_key_witness :
  exists e,
    @decrypt reference_backend None not_a_key Reference.now
    = (Return None,
       printed {| diag_error := e; diag_function := "decrypt";
                  diag_line := 144 |} Reference.now).
Proof.
  refine (@decrypt_refuses_key reference_backend None not_a_key
            Reference.now _).
  vm_compute. reflexivity.
Defined.

Lemma wrong_length_key_refused_witness :
  value (@encrypt reference_backend Reference.hello
           (UTF8.ascii_text (Base64.urlsafe_b64encode (repeat x00 16)))
           Reference.now) = None
  /\ value (@decrypt reference_backend
              (Some (reference_ciphertext Reference.hello Reference.now))
              (UTF8.ascii_text (Base64.urlsafe_b64encode (repeat x00 16)))
              Reference.now) = None.
Proof.
  refine (@wrong_length_key_refused reference_backend (repeat x00 16)
            Reference.hello _ Reference.now _).
  cbn [repeat length]. lia.
Defined.

Lemma keygen_key_round_trips_witness :
  value (@decrypt_encrypt reference_backend Reference.hello
           reference_derived_key reference_derived_key Reference.now)
  = Some Reference.hello.
Proof.
  refine (@keygen_key_round_trips reference_backend None Reference.hello
            (Some true) Reference.now reference_derived_key Reference.hello
            Reference.now _ hello_scalar reference_clock_ok).
  vm_compute. reflexivity.
Defined.

Lemma keygen_stores_returned_key_witness :
  processes (snd (@keygen reference_backend None Reference.hello (Some true)
                    Reference.now))
  = [setx _KEY_NAME reference_derived_key]
  /\ stdout (snd (@keygen reference_backend None Reference.hello (Some true)
                    Reference.now)) = [].
Proof.
  refine (@keygen_stores_returned_key reference_backend None Reference.hello
            (Some true) Reference.now reference_derived_key _).
  vm_compute. reflexivity.
Defined.

Lemma keygen_loses_key_when_popen_raises_witness :
  value (@keygen reference_backend (Some [0%N]) Reference.hello (Some true)
           Reference.now) = None
  /\ processes (snd (@keygen reference_backend (Some [0%N]) Reference.hello
                       (Some true) Reference.now)) = []
  /\ entropy_pos (snd (@keygen reference_backend (Some [0%N]) Reference.hello
                         (Some true) Reference.now)) = 128.
Proof.
  assert (K : @keygen_key reference_backend Reference.hello Reference.now
              = Some reference_derived_key) by (vm_compute; reflexivity).
  assert (P : @popen_error reference_backend
                (setx (key_label (Some [0%N])) reference_derived_key)
              = Some ValueError) by (vm_compute; reflexivity).
  destruct (@keygen_loses_key_when_popen_raises reference_backend
              (Some [0%N]) Reference.hello (Some true) Reference.now
              reference_derived_key ValueError K P)
    as (E & Q & S).
  split; [now rewrite E | split; [exact Q | exact S]].
Defined.

Lemma keygen_refuses_passphrase_witness :
  @keygen reference_backend None [0xD800%N] (Some true) Reference.now
  = (Return None,
     printed {| diag_error := UnicodeEncodeError; diag_function := "keygen";
                diag_line := 71 |} Reference.now).
Proof.
  refine (@keygen_refuses_passphrase reference_backend None [0xD800%N]
            (Some true) Reference.now _).
  vm_compute. reflexivity.
Defined.

Lemma encrypt_reads_two_ivs_witness :
  entropy_pos (snd (@encrypt reference_backend Reference.hello Reference.key
                      Reference.now)) = 32
  /\ clock_pos (snd (@encrypt reference_backend Reference.hello
                       Reference.key Reference.now)) = 2
  /\ stdout (snd (@encrypt reference_backend Reference.hello Reference.key
                    Reference.now)) = []
  /\ processes (snd (@encrypt reference_backend Reference.hello
                       Reference.key Reference.now)) = [].
Proof.
  refine (@encrypt_reads_two_ivs reference_backend Reference.hello
            Reference.key Reference.now
            (reference_ciphertext Reference.hello Reference.now) _).
  vm_compute. reflexivity.
Defined.

Lemma ciphertext_shape_witness :
  ciphertext_length 0 = 228
  /\ forallb urlsafe_char (reference_ciphertext [] Reference.now) = true
  /\ length (reference_ciphertext [] Reference.now) = ciphertext_length 0
  /\ 0 < length (reference_ciphertext [] Reference.now)
  /\ reference_ciphertext [] Reference.now <> [].
Proof.
  split; [vm_compute; reflexivity|].
  refine (@ciphertext_shape reference_backend [] Reference.key []
            Reference.now (reference_ciphertext [] Reference.now) _ _).
  - reflexivity.
  - vm_compute. reflexivity.
Defined.

Lemma decrypt_of_single_layer_witness :
  value (@decrypt reference_backend (Some (UTF8.ascii_text reference_layer1))
           Reference.key Reference.now)
  = None.
Proof.
  rewrite (@decrypt_of_single_layer reference_backend Reference.key
             reference_fernet (fst (encrypt_draws Reference.now))
             (map n2b Reference.hello) reference_layer1 Reference.now).
  - vm_compute. reflexivity.
  - vm_compute. reflexivity.
  - vm_compute. reflexivity.
  - vm_compute. reflexivity.
Defined.

Lemma failed_encrypt_is_reported_twice_witness :
  value (@decrypt_encrypt reference_backend [0xD800%N] Reference.key
           Reference.key Reference.now) = None
  /\ exists e line,
       stdout (snd (@decrypt_encrypt reference_backend [0xD800%N]
                      Reference.key Reference.key Reference.now))
       = [{| diag_error := AttributeError; diag_function := "decrypt";
             diag_line := 145 |};
          {| diag_error := e; diag_function := "encrypt";
             diag_line := line |}].
Proof.
  refine (@failed_encrypt_is_reported_twice reference_backend [0xD800%N]
            Reference.key Reference.key reference_fernet Reference.now _ _).
  - vm_compute. reflexivity.
  - vm_compute. reflexivity.
Defined.

Lemma encrypt_refuses_message_witness :
  @encrypt reference_backend [0xD800%N] not_a_key Reference.now
  = (Return None,
     printed {| diag_error := UnicodeEncodeError; diag_function := "encrypt";
                diag_line := 114 |} Reference.now).
Proof.
  refine (@encrypt_refuses_message reference_backend [0xD800%N] not_a_key
            Reference.now _).
  reflexivity.
Defined.

Lemma decrypt_refuses_non_token_witness :
  @decrypt reference_backend (Some []) Reference.key Reference.now
  = (Return None,
     printed {| diag_error := InvalidToken; diag_function := "decrypt";
                diag_line := 145 |} Reference.now).
Proof.
  refine (@decrypt_refuses_non_token reference_backend [] Reference.key
            reference_fernet [] Reference.now _ _ _).
  - vm_compute. reflexivity.
  - reflexivity.
  - intros data H. vm_compute in H. apply some_inj in H. subst data.
    left. cbn [length]. lia.
Defined.

(** * Decryption under another key

    Whether [decrypt] fails under a key other than the one of [encrypt]
    is decided by HMAC-SHA256 and AES themselves: by whether the tag made
    under one signing key verifies under another and, when it does, by
    what the cipher makes of the ciphertext under another key.  The
    contract of [Backend] says nothing of either, and the lemmas below
    show that it leaves the outcome open. *)

(** Two derived keys of different texts are different keys: only a text
    that [keygen] cannot make can be a second text of a key. *)
Lemma derived_keys_differ (k1 k2 : Text) :
  derived_key k1 -> derived_key k2 -> k1 <> k2 -> key_of k1 <> key_of k2.
Proof.
  intros (r1 & L1 & ->) (r2 & L2 & ->) D E. apply D.
  rewrite !key_of_split, !(utf8_encode_ascii _ (b64_ascii _)) in E.
  rewrite (fernet_init_encode r1 L1), (fernet_init_encode r2 L2) in E.
  apply some_inj in E.
  assert (F : firstn 16 r1 = firstn 16 r2) by congruence.
  assert (S : skipn 16 r1 = skipn 16 r2) by congruence.
  rewrite <- (firstn_skipn 16 r1), <- (firstn_skipn 16 r2), F, S.
  reflexivity.
Qed.

Lemma other_keys_derived :
  derived_key other_key /\ derived_key half_other_key
  /\ Reference.key <> other_key /\ Reference.key <> half_other_key.
Proof.
  split; [exists (repeat x01 32); split; reflexivity|].
  split; [exists (repeat x00 16 ++ repeat x01 16); split; reflexivity|].
  split; vm_compute; discriminate.
Qed.

(** Under the reference backend the other derived key fails; under the
    keyless backend, which meets the same contract, it decrypts. *)
Lemma other_key_outcome_not_in_contract :
  value (@decrypt_encrypt reference_backend Reference.hello Reference.key
           other_key Reference.now) = None
  /\ value (@decrypt_encrypt keyless_backend Reference.hello Reference.key
              other_key Reference.now) = Some Reference.hello.
Proof. split; vm_compute; reflexivity. Qed.

(** A key that shares the signing half verifies the tag of the outer
    layer, and fails later, on what the cipher gives under it. *)
Lemma shared_signing_half_fails_after_tag :
  @verifies reference_backend
    match key_of half_other_key with
    | Some f => f
    | None => reference_fernet
    end
    (reference_ciphertext Reference.hello Reference.now) = true
  /\ value (@decrypt_encrypt reference_backend Reference.hello Reference.key
              half_other_key Reference.now) = None.
Proof. split; vm_compute; reflexivity. Qed.
